(** * FProcMeshSection: the mesh section container and its binary codecs

    A shallow embedding of [Source/UnrealSandboxTerrain/Public/ProcMeshData.h]:
    the vertex record, the section (vertex buffer, index buffer, local box),
    [Reset], [AddVertex], the field-by-field [SerializeMesh] /
    [DeserializeMesh] pair and the bulk [DeserializeMeshFast].

    Scalars are modelled at the bit level.  An [int32] is a [Z] in
    [-2^31, 2^31); a [float] is the [Z] in [0, 2^32) holding its IEEE-754
    binary32 bit pattern, so that writing and reading a float is the copy of
    four bytes that the archives perform, and comparing two floats is the
    IEEE comparison (NaN unordered, -0 = +0). *)

From Stdlib Require Import ZArith List Bool Lia.
From Stdlib.Strings Require Import Byte.
Import ListNotations.
Local Open Scope Z_scope.

(* ================================================================== *)
(** ** Bytes and 32-bit scalars *)

Module Scalar.

Definition byte_of_Z (z : Z) : byte :=
  match Byte.of_N (Z.to_N (z mod 256)) with
  | Some b => b
  | None => x00
  end.

Definition Z_of_byte (b : byte) : Z := Z.of_N (Byte.to_N b).

(** The four bytes of a 32-bit pattern, least significant first (the
    archives copy the scalar's memory; every supported target is
    little-endian). *)
Definition le_bytes4 (u : Z) : list byte :=
  [ byte_of_Z u;
    byte_of_Z (Z.shiftr u 8);
    byte_of_Z (Z.shiftr u 16);
    byte_of_Z (Z.shiftr u 24) ].

Definition le_word4 (b0 b1 b2 b3 : byte) : Z :=
  Z_of_byte b0
  + Z.shiftl (Z_of_byte b1) 8
  + Z.shiftl (Z_of_byte b2) 16
  + Z.shiftl (Z_of_byte b3) 24.

(** [int32]: two's complement. *)
Definition is_int32 (z : Z) : bool := (-2147483648 <=? z) && (z <? 2147483648).
Definition int32_bits (z : Z) : Z := z mod 4294967296.
Definition int32_of_bits (u : Z) : Z :=
  if u <? 2147483648 then u else u - 4294967296.

(** [float]: the binary32 bit pattern. *)
Definition float32 := Z.
Definition is_float32 (u : Z) : bool := (0 <=? u) && (u <? 4294967296).

Definition f32_magnitude (u : float32) : Z := Z.land u 2147483647.
Definition f32_sign (u : float32) : bool := Z.testbit u 31.
(** Exponent all ones and a non-zero fraction. *)
Definition f32_is_nan (u : float32) : bool := 2139095040 <? f32_magnitude u.
(** Sign-magnitude patterns mapped monotonically to [Z]; both zeros map to 0. *)
Definition f32_key (u : float32) : Z :=
  if f32_sign u then - f32_magnitude u else f32_magnitude u.

(** The C++ operators [<=] and [>=] on [float]: false as soon as one operand
    is a NaN. *)
Definition f32_le (a b : float32) : bool :=
  negb (f32_is_nan a) && negb (f32_is_nan b) && (f32_key a <=? f32_key b).
Definition f32_ge (a b : float32) : bool := f32_le b a.

(** The number a pattern stands for, times 2^149 (an integer for every
    binary32 value): with biased exponent [e] and fraction [m] the magnitude is
    [m * 2^-149] when [e = 0] and [(2^23 + m) * 2^(e - 150)] otherwise.  The
    formula is also applied to the infinities, which it places beyond every
    finite value. *)
Definition mag_scaled (g : Z) : Z :=
  let e := g / 8388608 in
  let m := g mod 8388608 in
  if e =? 0 then m else (8388608 + m) * 2 ^ (e - 1).

Definition f32_scaled (u : float32) : Z :=
  if f32_sign u then - mag_scaled (f32_magnitude u) else mag_scaled (f32_magnitude u).

End Scalar.

Import Scalar.

(* ================================================================== *)
(** ** Engine value types used by the section *)

(** [FVector]: three float components ([X], [Y], [Z] in the engine; the
    prefix avoids the clash with the integer type). *)
Record FVector : Type := mkFVector { VecX : float32; VecY : float32; VecZ : float32 }.

Definition FVector_Zero : FVector := mkFVector 0 0 0.

(** [FMath::Min] and [FMath::Max] are the generic templates
    [(A <= B) ? A : B] and [(A >= B) ? A : B]. *)
Definition FMath_Min (A B : float32) : float32 := if f32_le A B then A else B.
Definition FMath_Max (A B : float32) : float32 := if f32_ge A B then A else B.

(** Modelled from the spec: [FBox] is an engine type, declared outside
    [src/].  The spec's BoundingBox is "an axis-aligned min/max corner pair"
    with "a canonical empty state (no contained points) that must not be
    mistaken for a degenerate unit-size box", and [AddVertex] "extends the
    bounding box to include [v]'s position".  The engine realises the empty
    state with a validity flag next to the two corners: [Init] zeroes both
    corners and clears the flag, the two-corner constructor sets it, and
    [operator+=] either takes the point as both corners (flag clear) or widens
    each coordinate with [FMath::Min] / [FMath::Max] (flag set). *)
Record FBox : Type := mkFBox { Min : FVector; Max : FVector; IsValid : bool }.

Definition FBox_Init : FBox := mkFBox FVector_Zero FVector_Zero false.

(** [FBox(EForceInit::ForceInitToZero)] is [Init()]. *)
Definition FBox_ForceInitToZero : FBox := FBox_Init.

(** [FBox(InMin, InMax)]. *)
Definition FBox_MinMax (InMin InMax : FVector) : FBox := mkFBox InMin InMax true.

(** [Box += Other]. *)
Definition FBox_AddPoint (Box : FBox) (Other : FVector) : FBox :=
  if IsValid Box then
    mkFBox
      (mkFVector (FMath_Min (VecX (Min Box)) (VecX Other))
                 (FMath_Min (VecY (Min Box)) (VecY Other))
                 (FMath_Min (VecZ (Min Box)) (VecZ Other)))
      (mkFVector (FMath_Max (VecX (Max Box)) (VecX Other))
                 (FMath_Max (VecY (Max Box)) (VecY Other))
                 (FMath_Max (VecZ (Max Box)) (VecZ Other)))
      true
  else mkFBox Other Other true.

(** [TArray<T>], the engine's growable array: a list; [Add] appends at the
    end, [Num] is an [int32]. *)
Definition TArray_Add {T : Type} (A : list T) (x : T) : list T := A ++ [x].
Definition TArray_Num {T : Type} (A : list T) : Z := Z.of_nat (length A).

(* ================================================================== *)
(** ** The vertex record and the section *)

Record FProcMeshVertex : Type := mkVertex {
  PositionX : float32;
  PositionY : float32;
  PositionZ : float32;
  NormalX : float32;
  NormalY : float32;
  NormalZ : float32;
  MatIdx : Z
}.

Record FProcMeshSection : Type := mkSection {
  ProcVertexBuffer : list FProcMeshVertex;
  ProcIndexBuffer : list Z;
  SectionLocalBox : FBox
}.

(** The constructor: [FProcMeshSection() : SectionLocalBox(ForceInitToZero) {}]. *)
Definition FProcMeshSection_new : FProcMeshSection :=
  mkSection [] [] FBox_ForceInitToZero.

Definition Reset (M : FProcMeshSection) : FProcMeshSection :=
  mkSection [] [] FBox_Init.

Definition VertexPos (Vertex : FProcMeshVertex) : FVector :=
  mkFVector (PositionX Vertex) (PositionY Vertex) (PositionZ Vertex).

Definition AddVertex (M : FProcMeshSection) (Vertex : FProcMeshVertex) : FProcMeshSection :=
  mkSection (TArray_Add (ProcVertexBuffer M) Vertex)
            (ProcIndexBuffer M)
            (FBox_AddPoint (SectionLocalBox M) (VertexPos Vertex)).

(** An index append is [ProcIndexBuffer.Add(Index)] on the public member. *)
Definition AddIndex (M : FProcMeshSection) (Index : Z) : FProcMeshSection :=
  mkSection (ProcVertexBuffer M) (TArray_Add (ProcIndexBuffer M) Index) (SectionLocalBox M).

(** What a builder does to a section between construction and encoding. *)
Inductive BuildOp : Type :=
| OpAddVertex (Vertex : FProcMeshVertex)
| OpAddIndex (Index : Z).

Definition build_step (M : FProcMeshSection) (op : BuildOp) : FProcMeshSection :=
  match op with
  | OpAddVertex Vertex => AddVertex M Vertex
  | OpAddIndex Index => AddIndex M Index
  end.

Definition build (ops : list BuildOp) (M : FProcMeshSection) : FProcMeshSection :=
  fold_left build_step ops M.

(** Values the types can hold: 32-bit scalars, and buffers whose element
    count fits the [int32] that [TArray::Num] returns. *)
Definition wf_vertex (V : FProcMeshVertex) : bool :=
  is_float32 (PositionX V) && is_float32 (PositionY V) && is_float32 (PositionZ V)
  && is_float32 (NormalX V) && is_float32 (NormalY V) && is_float32 (NormalZ V)
  && is_int32 (MatIdx V).

Definition wf_buffers (M : FProcMeshSection) : bool :=
  forallb wf_vertex (ProcVertexBuffer M)
  && forallb is_int32 (ProcIndexBuffer M)
  && (TArray_Num (ProcVertexBuffer M) <? 2147483648)
  && (TArray_Num (ProcIndexBuffer M) <? 2147483648).

(** The corners of a box hold 32-bit patterns. *)
Definition wf_vector (P : FVector) : bool :=
  is_float32 (VecX P) && is_float32 (VecY P) && is_float32 (VecZ P).

Definition wf_box (B : FBox) : bool := wf_vector (Min B) && wf_vector (Max B).

Definition wf_section (M : FProcMeshSection) : bool :=
  wf_buffers M && wf_box (SectionLocalBox M).

(* ================================================================== *)
(** ** The writing archive and [SerializeMesh] *)

(** Modelled from the spec: [FBufferArchive] is an engine type, declared
    outside [src/].  It is a byte array that grows at its end; [Ar << x]
    appends the scalar's four bytes: "all scalar fields are written at their
    natural fixed width with no padding and no length framing". *)
Definition FBufferArchive := list byte.

Definition write_float (Ar : FBufferArchive) (x : float32) : FBufferArchive :=
  Ar ++ le_bytes4 x.

Definition write_int32 (Ar : FBufferArchive) (x : Z) : FBufferArchive :=
  Ar ++ le_bytes4 (int32_bits x).

(** The body of the vertex loop. *)
Definition write_vertex (Ar : FBufferArchive) (Vertex : FProcMeshVertex) : FBufferArchive :=
  let Ar := write_float Ar (PositionX Vertex) in
  let Ar := write_float Ar (PositionY Vertex) in
  let Ar := write_float Ar (PositionZ Vertex) in
  let Ar := write_float Ar (NormalX Vertex) in
  let Ar := write_float Ar (NormalY Vertex) in
  let Ar := write_float Ar (NormalZ Vertex) in
  write_int32 Ar (MatIdx Vertex).

Definition SerializeMesh (M : FProcMeshSection) (BinaryData : FBufferArchive) : FBufferArchive :=
  let VertexNum := TArray_Num (ProcVertexBuffer M) in
  let Ar := write_int32 BinaryData VertexNum in
  let MaxX := VecX (Max (SectionLocalBox M)) in
  let MaxY := VecY (Max (SectionLocalBox M)) in
  let MaxZ := VecZ (Max (SectionLocalBox M)) in
  let MinX := VecX (Min (SectionLocalBox M)) in
  let MinY := VecY (Min (SectionLocalBox M)) in
  let MinZ := VecZ (Min (SectionLocalBox M)) in
  let Ar := write_float Ar MinX in
  let Ar := write_float Ar MinY in
  let Ar := write_float Ar MinZ in
  let Ar := write_float Ar MaxX in
  let Ar := write_float Ar MaxY in
  let Ar := write_float Ar MaxZ in
  let Ar := fold_left write_vertex (ProcVertexBuffer M) Ar in
  let IndexNum := TArray_Num (ProcIndexBuffer M) in
  let Ar := write_int32 Ar IndexNum in
  fold_left write_int32 (ProcIndexBuffer M) Ar.

(** The stream of a section written to an empty archive. *)
Definition encode (M : FProcMeshSection) : list byte := SerializeMesh M [].

(* ================================================================== *)
(** ** The reading archive and [DeserializeMesh] *)

(** Modelled from the spec: [FMemoryReader] is an engine type, declared
    outside [src/].  It is a cursor over a byte array ("an arbitrary byte
    stream"), kept here as the bytes from the cursor on.  When the stream
    "ends before all fields ... are present" the engine's reader copies
    nothing, leaves the destination as it was and raises its own error flag;
    once the flag is up every later read is skipped.  [operator<<] returns
    the archive, never a status. *)
Record FMemoryReader : Type := mkReader { Remaining : list byte; ArIsError : bool }.

Definition FMemoryReader_new (Bytes : list byte) : FMemoryReader := mkReader Bytes false.

(** One 4-byte [Serialize] call: the bits copied, if any, and the archive after it. *)
Definition Serialize4 (Ar : FMemoryReader) : option Z * FMemoryReader :=
  if ArIsError Ar then (None, Ar)
  else match Remaining Ar with
       | b0 :: b1 :: b2 :: b3 :: rest => (Some (le_word4 b0 b1 b2 b3), mkReader rest false)
       | _ => (None, mkReader (Remaining Ar) true)
       end.

(** Reading threads the archive through every statement: a reading action
    takes the archive and returns its result with the archive after it. *)
Definition Reading (A : Type) : Type := FMemoryReader -> A * FMemoryReader.

Definition rret {A : Type} (a : A) : Reading A := fun Ar => (a, Ar).

Definition rbind {A B : Type} (f : Reading A) (g : A -> Reading B) : Reading B :=
  fun Ar => let '(a, Ar') := f Ar in g a Ar'.

Notation "x <<- f ;; g" := (rbind f (fun x => g))
  (at level 61, f at next level, right associativity).

(** [Ar << Dst] for a [float] and for an [int32] destination: the value the
    destination holds afterwards. *)
Definition load_float (Dst : float32) : Reading float32 :=
  fun Ar => match Serialize4 Ar with
            | (Some u, Ar') => (u, Ar')
            | (None, Ar') => (Dst, Ar')
            end.

Definition load_int32 (Dst : Z) : Reading Z :=
  fun Ar => match Serialize4 Ar with
            | (Some u, Ar') => (int32_of_bits u, Ar')
            | (None, Ar') => (Dst, Ar')
            end.

(** [DeserializeMesh] declares its locals without initialisers.  What such a
    local holds before the archive fills it is whatever the stack held; the
    model takes those contents as an argument, one per local (and per loop
    iteration for the locals declared in a loop body).  They only matter when
    a read is skipped. *)
Record Indeterminate : Type := mkIndeterminate {
  VertexNum0 : Z;
  Box0 : float32;
  Vertex0 : nat -> FProcMeshVertex;
  IndexNum0 : Z;
  Index0 : nat -> Z
}.

(** The seven reads of the vertex loop body, into the local [Vertex]. *)
Definition load_vertex (Vertex : FProcMeshVertex) : Reading FProcMeshVertex :=
  px <<- load_float (PositionX Vertex) ;;
  py <<- load_float (PositionY Vertex) ;;
  pz <<- load_float (PositionZ Vertex) ;;
  nx <<- load_float (NormalX Vertex) ;;
  ny <<- load_float (NormalY Vertex) ;;
  nz <<- load_float (NormalZ Vertex) ;;
  mi <<- load_int32 (MatIdx Vertex) ;;
  rret (mkVertex px py pz nx ny nz mi).

(** [for (int Idx = 0; Idx < VertexNum; Idx++) { ...; AddVertex(Vertex); }]
    with [n] iterations left and loop counter [Idx]. *)
Fixpoint load_vertices (G : Indeterminate) (n Idx : nat) (M : FProcMeshSection) {struct n}
  : Reading FProcMeshSection :=
  match n with
  | O => rret M
  | S n' =>
      Vertex <<- load_vertex (Vertex0 G Idx) ;;
      load_vertices G n' (S Idx) (AddVertex M Vertex)
  end.

(** [for (int Idx = 0; Idx < IndexNum; Idx++) { ...; ProcIndexBuffer.Add(Index); }]. *)
Fixpoint load_indices (G : Indeterminate) (n Idx : nat) (M : FProcMeshSection) {struct n}
  : Reading FProcMeshSection :=
  match n with
  | O => rret M
  | S n' =>
      Index <<- load_int32 (Index0 G Idx) ;;
      load_indices G n' (S Idx) (AddIndex M Index)
  end.

(** The function returns [void]; the model returns the section and the
    archive as the call leaves them.  The six box values are read into locals
    that nothing reads afterwards.  A loop whose bound is zero or negative
    does not run, hence [Z.to_nat]. *)
Definition DeserializeMesh (G : Indeterminate) (M : FProcMeshSection)
  : Reading FProcMeshSection :=
  VertexNum <<- load_int32 (VertexNum0 G) ;;
  MinX <<- load_float (Box0 G) ;;
  MinY <<- load_float (Box0 G) ;;
  MinZ <<- load_float (Box0 G) ;;
  MaxX <<- load_float (Box0 G) ;;
  MaxY <<- load_float (Box0 G) ;;
  MaxZ <<- load_float (Box0 G) ;;
  M <<- load_vertices G (Z.to_nat VertexNum) 0 M ;;
  IndexNum <<- load_int32 (IndexNum0 G) ;;
  load_indices G (Z.to_nat IndexNum) 0 M.

(** Decoding a whole buffer into a section. *)
Definition decode (G : Indeterminate) (M : FProcMeshSection) (Bytes : list byte)
  : FProcMeshSection * FMemoryReader :=
  DeserializeMesh G M (FMemoryReader_new Bytes).

(* ================================================================== *)
(** ** The bulk reader and [DeserializeMeshFast] *)

(** Modelled from the spec: [FastUnsafeDeserializer] is declared in
    [serialization.hpp], which is not under [src/].  Per the spec it is "a
    readable byte cursor" from which [readObj] takes one object and [read]
    copies [count * sizeof(T)] bytes "as a single bulk operation - no per-field
    interpretation", and it "performs no bounds checking against the remaining
    buffer length; the caller is responsible for guaranteeing the buffer
    contains at least the bytes implied by the two counts".  The cursor is the
    list of bytes from the cursor on; a copy that would run past the end of the
    buffer has no defined result, which the model renders as [None]. *)
Definition FastUnsafeDeserializer := list byte.

Definition raw_read (n : nat) (D : FastUnsafeDeserializer)
  : option (list byte * FastUnsafeDeserializer) :=
  if (length D <? n)%nat then None else Some (firstn n D, skipn n D).

(** The 32-bit pattern stored at byte offset [off] of a memory block. *)
Definition peek32 (mem : list byte) (off : nat) : Z :=
  le_word4 (nth off mem x00) (nth (off + 1) mem x00)
           (nth (off + 2) mem x00) (nth (off + 3) mem x00).

(** An array of [n] floats, and of [n] [int32], over a memory block. *)
Fixpoint float_array (n : nat) (mem : list byte) : list float32 :=
  match n with
  | O => []
  | S n' => peek32 mem 0 :: float_array n' (skipn 4 mem)
  end.

Fixpoint int32_array (n : nat) (mem : list byte) : list Z :=
  match n with
  | O => []
  | S n' => int32_of_bits (peek32 mem 0) :: int32_array n' (skipn 4 mem)
  end.

(** [FProcMeshVertex] in memory: seven 4-byte members in declaration order,
    28 bytes, no padding. *)
Definition sizeof_FProcMeshVertex : nat := 28.

Definition vertex_of_memory (mem : list byte) : FProcMeshVertex :=
  mkVertex (peek32 mem 0) (peek32 mem 4) (peek32 mem 8)
           (peek32 mem 12) (peek32 mem 16) (peek32 mem 20)
           (int32_of_bits (peek32 mem 24)).

Fixpoint vertex_array (n : nat) (mem : list byte) : list FProcMeshVertex :=
  match n with
  | O => []
  | S n' => vertex_of_memory mem :: vertex_array n' (skipn sizeof_FProcMeshVertex mem)
  end.

Definition obind {A B : Type} (o : option A) (k : A -> option B) : option B :=
  match o with
  | Some a => k a
  | None => None
  end.

Notation "' p <- o ;; k" := (obind o (fun p => k))
  (at level 60, p pattern, o at next level, right associativity).

Definition readObj_int32 (D : FastUnsafeDeserializer) : option (Z * FastUnsafeDeserializer) :=
  '(mem, D) <- raw_read 4 D ;;
  Some (int32_of_bits (peek32 mem 0), D).

Definition read_floats (n : nat) (D : FastUnsafeDeserializer)
  : option (list float32 * FastUnsafeDeserializer) :=
  '(mem, D) <- raw_read (4 * n) D ;;
  Some (float_array n mem, D).

Definition read_int32s (n : nat) (D : FastUnsafeDeserializer)
  : option (list Z * FastUnsafeDeserializer) :=
  '(mem, D) <- raw_read (4 * n) D ;;
  Some (int32_array n mem, D).

Definition read_vertices (n : nat) (D : FastUnsafeDeserializer)
  : option (list FProcMeshVertex * FastUnsafeDeserializer) :=
  '(mem, D) <- raw_read (sizeof_FProcMeshVertex * n) D ;;
  Some (vertex_array n mem, D).

Definition FVector_of_array (a : list float32) : FVector :=
  mkFVector (nth 0 a 0) (nth 1 a 0) (nth 2 a 0).

(** [SetNum(VertexNum)] followed by the bulk copy over [GetData()] leaves
    the buffer holding exactly the [VertexNum] records copied, whatever it
    held before; a negative count has no defined result either. *)
Definition DeserializeMeshFast (M : FProcMeshSection) (Deserializer : FastUnsafeDeserializer)
  : option (FProcMeshSection * FastUnsafeDeserializer) :=
  '(VertexNum, D) <- readObj_int32 Deserializer ;;
  '(Min_, D) <- read_floats 3 D ;;
  '(Max_, D) <- read_floats 3 D ;;
  if VertexNum <? 0 then None else
  '(Vertices, D) <- read_vertices (Z.to_nat VertexNum) D ;;
  '(IndexNum, D) <- readObj_int32 D ;;
  if IndexNum <? 0 then None else
  '(Indices, D) <- read_int32s (Z.to_nat IndexNum) D ;;
  let Box := FBox_MinMax (FVector_of_array Min_) (FVector_of_array Max_) in
  Some (mkSection Vertices Indices Box, D).


(* ================================================================== *)
(** ** Replaying buffers *)

(** [AddVertex] once per record, and an index append once per value. *)
Definition AddVertices (M : FProcMeshSection) (Vertices : list FProcMeshVertex)
  : FProcMeshSection := fold_left AddVertex Vertices M.

Definition AddIndices (M : FProcMeshSection) (Indices : list Z)
  : FProcMeshSection := fold_left AddIndex Indices M.

(** The vertices a build sequence inserts, in order. *)
Definition inserted (ops : list BuildOp) : list FProcMeshVertex :=
  flat_map (fun op => match op with OpAddVertex V => [V] | OpAddIndex _ => [] end) ops.

Definition appended (ops : list BuildOp) : list Z :=
  flat_map (fun op => match op with OpAddVertex _ => [] | OpAddIndex i => [i] end) ops.

(** The box a run of [+=] builds from a given box. *)
Definition FBox_AddPoints (Box : FBox) (Points : list FVector) : FBox :=
  fold_left FBox_AddPoint Points Box.

(* ================================================================== *)
(** ** The wire format as the specification words it *)

(** A field of the stream: a 32-bit signed integer or a float. *)
Inductive Field : Type :=
| FInt32 (z : Z)
| FFloat (x : float32).

Definition field_bytes (f : Field) : list byte :=
  match f with
  | FInt32 z => le_bytes4 (int32_bits z)
  | FFloat x => le_bytes4 x
  end.

(** "position.x, position.y, position.z, normal.x, normal.y, normal.z,
    material index (7 scalar fields, in that order)". *)
Definition vertex_fields (V : FProcMeshVertex) : list Field :=
  [ FFloat (PositionX V); FFloat (PositionY V); FFloat (PositionZ V);
    FFloat (NormalX V); FFloat (NormalY V); FFloat (NormalZ V);
    FInt32 (MatIdx V) ].

(** "min.x, min.y, min.z, max.x, max.y, max.z (... min is written before max)". *)
Definition box_fields (B : FBox) : list Field :=
  [ FFloat (VecX (Min B)); FFloat (VecY (Min B)); FFloat (VecZ (Min B));
    FFloat (VecX (Max B)); FFloat (VecY (Max B)); FFloat (VecZ (Max B)) ].

(** The five groups of the encode contract, in order. *)
Definition wire_fields (M : FProcMeshSection) : list Field :=
  [FInt32 (TArray_Num (ProcVertexBuffer M))]
  ++ box_fields (SectionLocalBox M)
  ++ flat_map vertex_fields (ProcVertexBuffer M)
  ++ [FInt32 (TArray_Num (ProcIndexBuffer M))]
  ++ map FInt32 (ProcIndexBuffer M).

Definition wire_bytes (fs : list Field) : list byte := flat_map field_bytes fs.

(** The same stream with free counts: what a decoder may be handed. *)
Definition stream_fields (VertexNum : Z) (B : FBox) (Vertices : list FProcMeshVertex)
    (IndexNum : Z) (Indices : list Z) : list Field :=
  [FInt32 VertexNum] ++ box_fields B ++ flat_map vertex_fields Vertices
  ++ [FInt32 IndexNum] ++ map FInt32 Indices.

(* ================================================================== *)
(** ** Tight bounds *)

(** [m] is a least element of [xs] for the float order, and dually. *)
Definition is_min_of (m : float32) (xs : list float32) : Prop :=
  In m xs /\ forall x, In x xs -> f32_le m x = true.

Definition is_max_of (m : float32) (xs : list float32) : Prop :=
  In m xs /\ forall x, In x xs -> f32_le x m = true.

(** The box is the component-wise minimum and maximum of the points. *)
Definition tight_bound (B : FBox) (Points : list FVector) : Prop :=
  IsValid B = true
  /\ is_min_of (VecX (Min B)) (map VecX Points)
  /\ is_min_of (VecY (Min B)) (map VecY Points)
  /\ is_min_of (VecZ (Min B)) (map VecZ Points)
  /\ is_max_of (VecX (Max B)) (map VecX Points)
  /\ is_max_of (VecY (Max B)) (map VecY Points)
  /\ is_max_of (VecZ (Max B)) (map VecZ Points).

Definition ordered_float (x : float32) : bool := negb (f32_is_nan x).

Definition ordered_point (P : FVector) : bool :=
  ordered_float (VecX P) && ordered_float (VecY P) && ordered_float (VecZ P).

(* ================================================================== *)
(** ** Sample values *)

Module Sample.

(** binary32 patterns: 0x3F800000 = 1.0, 0xBF800000 = -1.0, 0x40A00000 = 5.0,
    0xC0000000 = -2.0, 0x7FC00000 = quiet NaN. *)
Definition f_zero : float32 := 0.
Definition f_one : float32 := 1065353216.
Definition f_neg_one : float32 := 3212836864.
Definition f_five : float32 := 1084227584.
Definition f_neg_two : float32 := 3221225472.
Definition f_nan : float32 := 2143289344.

Definition at_pos (x y z : float32) (mat : Z) : FProcMeshVertex :=
  mkVertex x y z f_zero f_zero f_one mat.

Definition va : FProcMeshVertex := at_pos f_one f_zero f_zero 0.
Definition vb : FProcMeshVertex := at_pos f_neg_one f_five f_zero 1.
Definition vc : FProcMeshVertex := at_pos f_zero f_zero f_neg_two (-1).

(** A triangle: three vertices interleaved with the three indices. *)
Definition triangle_ops : list BuildOp :=
  [ OpAddVertex va; OpAddIndex 0; OpAddVertex vb; OpAddVertex vc;
    OpAddIndex 1; OpAddIndex 2 ].

Definition triangle : FProcMeshSection := build triangle_ops FProcMeshSection_new.

(** Two vertices, one degenerate triangle. *)
Definition two_vertices : FProcMeshSection :=
  build [OpAddVertex va; OpAddVertex vb; OpAddIndex 0; OpAddIndex 1; OpAddIndex 0]
        FProcMeshSection_new.

(** Stack contents for the uninitialised locals: the 0xCDCDCDCD fill. *)
Definition fill : Z := 3452816845.
Definition stack : Indeterminate :=
  mkIndeterminate 0 fill
    (fun _ => mkVertex fill fill fill fill fill fill (int32_of_bits fill))
    0 (fun _ => int32_of_bits fill).

End Sample.

(* ================================================================== *)
(** ** Properties of reading actions *)

(** An action that ends with the error flag down started with it down, and
    does the same on any longer stream, leaving the extra bytes unread. *)
Definition prefix_closed {A : Type} (f : Reading A) : Prop :=
  forall Ar, ArIsError (snd (f Ar)) = false ->
    ArIsError Ar = false
    /\ forall more, f (mkReader (Remaining Ar ++ more) false)
                    = (fst (f Ar), mkReader (Remaining (snd (f Ar)) ++ more) false).

(** What a decode call can do to the section it is given: append. *)
Definition extends_section (M0 M : FProcMeshSection) : Prop :=
  exists Vertices Indices, M = AddIndices (AddVertices M0 Vertices) Indices.

(** The decoder's only error channel is the archive's flag. *)
Definition decode_flags_error (G : Indeterminate) (M0 : FProcMeshSection) (Bytes : list byte)
  : bool := ArIsError (snd (decode G M0 Bytes)).

(** The claim that a decode call fails cleanly: the error is raised and the
    section is left as it was handed in. *)
Definition decode_rejects (G : Indeterminate) (M0 : FProcMeshSection) (Bytes : list byte)
  : Prop :=
  decode_flags_error G M0 Bytes = true /\ fst (decode G M0 Bytes) = M0.

(* ================================================================== *)
(** ** Sample streams *)

Module Streams.
Import Sample.

(** The triangle with a stored box that bounds none of its vertices. *)
Definition wrong_corner : FVector := mkFVector f_five f_five f_five.
Definition mislabelled : FProcMeshSection :=
  mkSection (ProcVertexBuffer triangle) (ProcIndexBuffer triangle)
            (FBox_MinMax wrong_corner wrong_corner).

(** Two encoded vertices, cut just before the material index of the second:
    4 + 24 + 28 + 24 bytes. *)
Definition truncated : list byte := firstn 80 (encode two_vertices).

(** A vertex count of -1, then three indices. *)
Definition negative_count : list byte :=
  wire_bytes (stream_fields (-1) FBox_Init [] 3 [0; 1; 2]).

(** One vertex; indices 7 and -1 point at no vertex. *)
Definition stray_indices : FProcMeshSection :=
  build [OpAddVertex va; OpAddIndex 0; OpAddIndex 7; OpAddIndex (-1)] FProcMeshSection_new.

(** Three vertices at x = 1, x = NaN and x = 0. *)
Definition nan_ops : list BuildOp :=
  [ OpAddVertex (at_pos f_one f_zero f_zero 0);
    OpAddVertex (at_pos f_nan f_zero f_zero 0);
    OpAddVertex (at_pos f_zero f_zero f_zero 0) ].

End Streams.

(** An index names a vertex of the section when it lies in [0, vertexCount). *)
Definition index_in_range (M : FProcMeshSection) (Index : Z) : bool :=
  (0 <=? Index) && (Index <? TArray_Num (ProcVertexBuffer M)).

Definition has_stray_index (M : FProcMeshSection) : bool :=
  existsb (fun Index => negb (index_in_range M Index)) (ProcIndexBuffer M).

(* ================================================================== *)
(** ** The tangent record *)

(** [FProcMeshTangent]: the X tangent and the flip flag, with the three
    constructors of the struct. *)
Record FProcMeshTangent : Type := mkTangent { TangentX : FVector; bFlipTangentY : bool }.

(** [FProcMeshTangent()]: [TangentX(1.f, 0.f, 0.f)], [bFlipTangentY(false)]. *)
Definition FProcMeshTangent_default : FProcMeshTangent :=
  mkTangent (mkFVector 1065353216 0 0) false.

(** [FProcMeshTangent(float X, float Y, float Z)]. *)
Definition FProcMeshTangent_XYZ (X Y Z : float32) : FProcMeshTangent :=
  mkTangent (mkFVector X Y Z) false.

(** [FProcMeshTangent(FVector InTangentX, bool bInFlipTangentY)]. *)
Definition FProcMeshTangent_of (InTangentX : FVector) (bInFlipTangentY : bool)
  : FProcMeshTangent := mkTangent InTangentX bInFlipTangentY.

(* ================================================================== *)
(** ** Sequences of calls on one section *)

(** The calls that go through the section's own mutators: [AddVertex], an
    index append, [Reset], and [DeserializeMesh] from some archive. *)
Inductive SectionCall : Type :=
| CallAddVertex (Vertex : FProcMeshVertex)
| CallAddIndex (Index : Z)
| CallReset
| CallDeserializeMesh (G : Indeterminate) (BinaryData : FMemoryReader).

Definition call (M : FProcMeshSection) (c : SectionCall) : FProcMeshSection :=
  match c with
  | CallAddVertex Vertex => AddVertex M Vertex
  | CallAddIndex Index => AddIndex M Index
  | CallReset => Reset M
  | CallDeserializeMesh G BinaryData => fst (DeserializeMesh G M BinaryData)
  end.

Definition calls (cs : list SectionCall) (M : FProcMeshSection) : FProcMeshSection :=
  fold_left call cs M.

(** The box is the one that [+=] builds, from the empty box, over the
    positions of the vertex buffer. *)
Definition box_replayed (M : FProcMeshSection) : Prop :=
  SectionLocalBox M = FBox_AddPoints FBox_Init (map VertexPos (ProcVertexBuffer M)).

(** The box [B] lies inside the box [B'], corner by corner. *)
Definition box_within (B B' : FBox) : Prop :=
  f32_le (VecX (Min B')) (VecX (Min B)) = true
  /\ f32_le (VecY (Min B')) (VecY (Min B)) = true
  /\ f32_le (VecZ (Min B')) (VecZ (Min B)) = true
  /\ f32_le (VecX (Max B)) (VecX (Max B')) = true
  /\ f32_le (VecY (Max B)) (VecY (Max B')) = true
  /\ f32_le (VecZ (Max B)) (VecZ (Max B')) = true.

(** The point [P] lies inside the box [B]. *)
Definition box_contains (B : FBox) (P : FVector) : Prop :=
  f32_le (VecX (Min B)) (VecX P) = true /\ f32_le (VecX P) (VecX (Max B)) = true
  /\ f32_le (VecY (Min B)) (VecY P) = true /\ f32_le (VecY P) (VecY (Max B)) = true
  /\ f32_le (VecZ (Min B)) (VecZ P) = true /\ f32_le (VecZ P) (VecZ (Max B)) = true.

Definition ordered_box (B : FBox) : bool :=
  ordered_point (Min B) && ordered_point (Max B).

(** A reading action that ends without error has consumed a run of bytes
    related to its result by [R]. *)
Definition decodes {A : Type} (f : Reading A) (R : A -> list byte -> Prop) : Prop :=
  forall Ar, ArIsError (snd (f Ar)) = false ->
    ArIsError Ar = false
    /\ exists bs, Remaining Ar = bs ++ Remaining (snd (f Ar)) /\ R (fst (f Ar)) bs.

(** The box a stream stores: its two corners (the flag is not stored). *)
Definition stored_box (MinX MinY MinZ MaxX MaxY MaxZ : float32) : FBox :=
  FBox_MinMax (mkFVector MinX MinY MinZ) (mkFVector MaxX MaxY MaxZ).

(** Replaying the two buffers of [M] onto [T], as a decode call does. *)
Definition replay_onto (T M : FProcMeshSection) : FProcMeshSection :=
  AddIndices (AddVertices T (ProcVertexBuffer M)) (ProcIndexBuffer M).

(** More sample values. *)
Module MoreSamples.
Import Sample.

(** The triangle built vertices first, indices last. *)
Definition triangle_ops_regrouped : list BuildOp :=
  [ OpAddVertex va; OpAddVertex vb; OpAddVertex vc;
    OpAddIndex 0; OpAddIndex 1; OpAddIndex 2 ].

(** Index appends only: a section without vertices. *)
Definition indices_only_ops : list BuildOp := [OpAddIndex 0; OpAddIndex 1].

(** The triangle with the validity flag of its box cleared: same buffers,
    same corners. *)
Definition unflagged_triangle : FProcMeshSection :=
  mkSection (ProcVertexBuffer triangle) (ProcIndexBuffer triangle)
            (mkFBox (Min (SectionLocalBox triangle)) (Max (SectionLocalBox triangle)) false).

Definition zero_count : list byte := le_bytes4 0.
Definition box_of_zeros : list byte := repeat x00 24.
Definition box_of_ones : list byte := repeat xff 24.

End MoreSamples.
(* ================================================================== *)
(** ** Facts about the scalar encodings *)

Module ScalarFacts.

Lemma Z_of_byte_range (b : byte) : 0 <= Z_of_byte b < 256.
Proof.
  unfold Z_of_byte. pose proof (Byte.to_N_bounded b) as H. lia.
Qed.

Lemma Z_of_byte_of_Z (z : Z) : Z_of_byte (byte_of_Z z) = z mod 256.
Proof.
  unfold Z_of_byte, byte_of_Z.
  assert (Hr : 0 <= z mod 256 < 256) by (apply Z.mod_pos_bound; lia).
  destruct (Byte.of_N (Z.to_N (z mod 256))) as [b|] eqn:E.
  - apply Byte.to_of_N in E. rewrite E. lia.
  - apply Byte.of_N_None_iff in E. lia.
Qed.

Lemma byte_of_Z_of_byte (b : byte) : byte_of_Z (Z_of_byte b) = b.
Proof.
  unfold byte_of_Z. pose proof (Z_of_byte_range b) as Hr.
  rewrite Z.mod_small by lia. unfold Z_of_byte.
  rewrite N2Z.id, Byte.of_to_N. reflexivity.
Qed.

Lemma le_word4_range (b0 b1 b2 b3 : byte) : 0 <= le_word4 b0 b1 b2 b3 < 4294967296.
Proof.
  unfold le_word4.
  pose proof (Z_of_byte_range b0). pose proof (Z_of_byte_range b1).
  pose proof (Z_of_byte_range b2). pose proof (Z_of_byte_range b3).
  rewrite !Z.shiftl_mul_pow2 by lia.
  change (2 ^ 8) with 256. change (2 ^ 16) with 65536. change (2 ^ 24) with 16777216.
  lia.
Qed.

Lemma le_word4_bytes4_mod (u : Z) :
  match le_bytes4 u with
  | [b0; b1; b2; b3] => le_word4 b0 b1 b2 b3 = u mod 4294967296
  | _ => False
  end.
Proof.
  unfold le_bytes4, le_word4.
  rewrite !Z_of_byte_of_Z.
  rewrite !Z.shiftr_div_pow2, !Z.shiftl_mul_pow2 by lia.
  change (2 ^ 8) with 256. change (2 ^ 16) with 65536. change (2 ^ 24) with 16777216.
  Z.to_euclidean_division_equations. lia.
Qed.

Lemma byte_of_Z_eq (z : Z) (b : byte) : z mod 256 = Z_of_byte b -> byte_of_Z z = b.
Proof.
  intros E. rewrite <- (byte_of_Z_of_byte b). unfold byte_of_Z.
  rewrite E. rewrite (Z.mod_small (Z_of_byte b)) by apply Z_of_byte_range.
  reflexivity.
Qed.

Lemma le_bytes4_word4 (b0 b1 b2 b3 : byte) :
  le_bytes4 (le_word4 b0 b1 b2 b3) = [b0; b1; b2; b3].
Proof.
  unfold le_bytes4, le_word4.
  pose proof (Z_of_byte_range b0). pose proof (Z_of_byte_range b1).
  pose proof (Z_of_byte_range b2). pose proof (Z_of_byte_range b3).
  rewrite !Z.shiftr_div_pow2, !Z.shiftl_mul_pow2 by lia.
  change (2 ^ 8) with 256. change (2 ^ 16) with 65536. change (2 ^ 24) with 16777216.
  repeat (apply f_equal2; [ apply byte_of_Z_eq; Z.to_euclidean_division_equations; lia | ]).
  reflexivity.
Qed.

Lemma int32_of_bits_bits (z : Z) : is_int32 z = true -> int32_of_bits (int32_bits z) = z.
Proof.
  unfold is_int32, int32_of_bits, int32_bits. intros H.
  apply andb_true_iff in H. destruct H as [H1 H2].
  apply Z.leb_le in H1. apply Z.ltb_lt in H2.
  destruct (z mod 4294967296 <? 2147483648) eqn:E;
    [apply Z.ltb_lt in E | apply Z.ltb_ge in E];
    Z.to_euclidean_division_equations; lia.
Qed.

Lemma int32_bits_range (z : Z) : 0 <= int32_bits z < 4294967296.
Proof. unfold int32_bits. apply Z.mod_pos_bound. lia. Qed.

Lemma int32_of_bits_range (u : Z) :
  0 <= u < 4294967296 -> is_int32 (int32_of_bits u) = true.
Proof.
  unfold is_int32, int32_of_bits. intros Hu.
  destruct (u <? 2147483648) eqn:E;
    [apply Z.ltb_lt in E | apply Z.ltb_ge in E];
    apply andb_true_iff; split; try apply Z.leb_le; try apply Z.ltb_lt; lia.
Qed.

(** *** The float order is the order of the values *)

Lemma mag_scaled_0 : mag_scaled 0 = 0.
Proof. reflexivity. Qed.

Lemma mag_scaled_lt g1 g2 : 0 <= g1 < g2 -> mag_scaled g1 < mag_scaled g2.
Proof.
  intros H. unfold mag_scaled.
  pose proof (Z.div_mod g1 8388608 ltac:(lia)) as D1.
  pose proof (Z.div_mod g2 8388608 ltac:(lia)) as D2.
  pose proof (Z.mod_pos_bound g1 8388608 ltac:(lia)) as B1.
  pose proof (Z.mod_pos_bound g2 8388608 ltac:(lia)) as B2.
  assert (E1 : 0 <= g1 / 8388608) by (apply Z.div_pos; lia).
  assert (E12 : g1 / 8388608 <= g2 / 8388608) by (apply Z.div_le_mono; lia).
  set (e1 := g1 / 8388608) in *. set (m1 := g1 mod 8388608) in *.
  set (e2 := g2 / 8388608) in *. set (m2 := g2 mod 8388608) in *.
  destruct (Z.eq_dec e1 e2) as [Ee | Ne].
  - rewrite <- Ee. assert (Hm : m1 < m2) by lia.
    destruct (e1 =? 0) eqn:Z1; [exact Hm|].
    apply Z.mul_lt_mono_pos_r; [apply Z.pow_pos_nonneg; lia | lia].
  - assert (Hlt : e1 < e2) by lia.
    assert (Z2 : (e2 =? 0) = false) by (apply Z.eqb_neq; lia). rewrite Z2.
    assert (Hup : 8388608 * 2 ^ e1 <= (8388608 + m2) * 2 ^ (e2 - 1)).
    { assert (P : 2 ^ e1 <= 2 ^ (e2 - 1)) by (apply Z.pow_le_mono_r; lia).
      assert (P0 : 0 < 2 ^ e1) by (apply Z.pow_pos_nonneg; lia).
      nia. }
    destruct (e1 =? 0) eqn:Z1.
    + apply Z.eqb_eq in Z1. rewrite Z1 in Hup. change (2 ^ 0) with 1 in Hup. lia.
    + apply Z.eqb_neq in Z1.
      assert (S1 : 2 ^ e1 = 2 * 2 ^ (e1 - 1)).
      { replace e1 with (Z.succ (e1 - 1)) at 1 by lia. apply Z.pow_succ_r. lia. }
      assert (P1 : 0 < 2 ^ (e1 - 1)) by (apply Z.pow_pos_nonneg; lia).
      nia.
Qed.

Lemma mag_scaled_le_iff g1 g2 :
  0 <= g1 -> 0 <= g2 -> (mag_scaled g1 <= mag_scaled g2 <-> g1 <= g2).
Proof.
  intros H1 H2. split; intros H.
  - destruct (Z_lt_le_dec g2 g1) as [L|L]; [|exact L].
    pose proof (mag_scaled_lt g2 g1 ltac:(lia)). lia.
  - destruct (Z.eq_dec g1 g2) as [->|N]; [lia|].
    pose proof (mag_scaled_lt g1 g2 ltac:(lia)). lia.
Qed.

Lemma f32_magnitude_nonneg u : 0 <= f32_magnitude u.
Proof. unfold f32_magnitude. apply Z.land_nonneg. right. lia. Qed.

Lemma mag_scaled_nonneg g : 0 <= g -> 0 <= mag_scaled g.
Proof.
  intros H. destruct (Z.eq_dec g 0) as [->|N]; [rewrite mag_scaled_0; lia|].
  pose proof (mag_scaled_lt 0 g ltac:(lia)). rewrite mag_scaled_0 in *. lia.
Qed.

Lemma mag_scaled_eq_0 g : 0 <= g -> (mag_scaled g = 0 <-> g = 0).
Proof.
  intros H. split; [|intros ->; apply mag_scaled_0].
  intros E. destruct (Z.eq_dec g 0) as [->|N]; [reflexivity|].
  pose proof (mag_scaled_lt 0 g ltac:(lia)). rewrite mag_scaled_0 in *. lia.
Qed.

(** On the monotone key the order is that of the values. *)
Lemma f32_key_order a b :
  (f32_key a <=? f32_key b) = (f32_scaled a <=? f32_scaled b).
Proof.
  unfold f32_key, f32_scaled.
  pose proof (f32_magnitude_nonneg a) as Ha. pose proof (f32_magnitude_nonneg b) as Hb.
  pose proof (mag_scaled_nonneg _ Ha) as Sa. pose proof (mag_scaled_nonneg _ Hb) as Sb.
  pose proof (mag_scaled_le_iff _ _ Ha Hb) as Iab.
  pose proof (mag_scaled_le_iff _ _ Hb Ha) as Iba.
  pose proof (mag_scaled_eq_0 _ Ha) as Za. pose proof (mag_scaled_eq_0 _ Hb) as Zb.
  apply eq_true_iff_eq. rewrite !Z.leb_le.
  destruct (f32_sign a), (f32_sign b); lia.
Qed.

(** [<=] on two floats compares the numbers they stand for, and fails when
    either is a NaN. *)
Lemma f32_le_value a b :
  f32_le a b
  = negb (f32_is_nan a) && negb (f32_is_nan b) && (f32_scaled a <=? f32_scaled b).
Proof. unfold f32_le. now rewrite f32_key_order. Qed.

End ScalarFacts.
Import ScalarFacts.

(* ================================================================== *)
(** ** Lists cut at a known length *)

Lemma skipn_exact {A} (a b : list A) n : length a = n -> skipn n (a ++ b) = b.
Proof.
  intros <-. induction a as [|x a IH]; [reflexivity|]. cbn [length skipn app]. exact IH.
Qed.

Lemma firstn_exact {A} (a b : list A) n : length a = n -> firstn n (a ++ b) = a.
Proof.
  intros <-. induction a as [|x a IH]; [reflexivity|].
  cbn [length firstn app]. now rewrite IH.
Qed.

(* ================================================================== *)
(** ** The section operations, componentwise *)

Lemma AddVertices_app M vs ws :
  AddVertices M (vs ++ ws) = AddVertices (AddVertices M vs) ws.
Proof. apply fold_left_app. Qed.

Lemma AddIndices_app M xs ys :
  AddIndices M (xs ++ ys) = AddIndices (AddIndices M xs) ys.
Proof. apply fold_left_app. Qed.

Lemma AddVertices_components vs : forall M,
  AddVertices M vs =
  mkSection (ProcVertexBuffer M ++ vs) (ProcIndexBuffer M)
            (FBox_AddPoints (SectionLocalBox M) (map VertexPos vs)).
Proof.
  induction vs as [|v vs IH]; intros M.
  - destruct M; simpl. now rewrite app_nil_r.
  - change (AddVertices M (v :: vs)) with (AddVertices (AddVertex M v) vs).
    rewrite IH. unfold AddVertex, TArray_Add; simpl.
    now rewrite <- app_assoc.
Qed.

Lemma AddIndices_components xs : forall M,
  AddIndices M xs =
  mkSection (ProcVertexBuffer M) (ProcIndexBuffer M ++ xs) (SectionLocalBox M).
Proof.
  induction xs as [|x xs IH]; intros M.
  - destruct M; simpl. now rewrite app_nil_r.
  - change (AddIndices M (x :: xs)) with (AddIndices (AddIndex M x) xs).
    rewrite IH. unfold AddIndex, TArray_Add; simpl.
    now rewrite <- app_assoc.
Qed.

(** A build sequence sorts itself into its vertices and its indices. *)
Lemma build_components ops : forall M,
  build ops M =
  mkSection (ProcVertexBuffer M ++ inserted ops)
            (ProcIndexBuffer M ++ appended ops)
            (FBox_AddPoints (SectionLocalBox M) (map VertexPos (inserted ops))).
Proof.
  induction ops as [|op ops IH]; intros M.
  - destruct M; simpl. now rewrite !app_nil_r.
  - change (build (op :: ops) M) with (build ops (build_step M op)).
    rewrite IH. destruct op as [V|i]; simpl;
      unfold TArray_Add; now rewrite <- app_assoc.
Qed.

(** Replaying the two buffers of a built section gives the section back. *)
Lemma replay_build ops :
  let M := build ops FProcMeshSection_new in
  AddIndices (AddVertices FProcMeshSection_new (ProcVertexBuffer M)) (ProcIndexBuffer M) = M.
Proof.
  intros M. subst M.
  rewrite AddIndices_components, AddVertices_components.
  rewrite (build_components ops FProcMeshSection_new). reflexivity.
Qed.


(* ================================================================== *)
(** ** The layout [SerializeMesh] writes *)

Lemma length_le_bytes4 u : length (le_bytes4 u) = 4%nat.
Proof. reflexivity. Qed.

Lemma length_field_bytes f : length (field_bytes f) = 4%nat.
Proof. destruct f; reflexivity. Qed.

Lemma length_wire_bytes fs : length (wire_bytes fs) = (4 * length fs)%nat.
Proof.
  induction fs as [|f fs IH]; [reflexivity|].
  unfold wire_bytes in *. simpl flat_map.
  rewrite length_app, IH, length_field_bytes. simpl length. lia.
Qed.

Lemma wire_bytes_app fs gs : wire_bytes (fs ++ gs) = wire_bytes fs ++ wire_bytes gs.
Proof. apply flat_map_app. Qed.

Lemma write_vertex_fields Ar V :
  write_vertex Ar V = Ar ++ wire_bytes (vertex_fields V).
Proof.
  unfold write_vertex, write_float, write_int32, wire_bytes, vertex_fields.
  cbn [flat_map field_bytes]. rewrite <- !app_assoc, app_nil_r. reflexivity.
Qed.

Lemma write_vertices_fields vs : forall Ar,
  fold_left write_vertex vs Ar = Ar ++ wire_bytes (flat_map vertex_fields vs).
Proof.
  induction vs as [|v vs IH]; intros Ar.
  - simpl. now rewrite app_nil_r.
  - cbn [fold_left flat_map]. rewrite IH, write_vertex_fields.
    rewrite wire_bytes_app, <- app_assoc. reflexivity.
Qed.

Lemma write_indices_fields xs : forall Ar,
  fold_left write_int32 xs Ar = Ar ++ wire_bytes (map FInt32 xs).
Proof.
  induction xs as [|x xs IH]; intros Ar.
  - simpl. now rewrite app_nil_r.
  - simpl fold_left. rewrite IH. unfold write_int32, wire_bytes.
    cbn [map flat_map field_bytes]. rewrite <- app_assoc. reflexivity.
Qed.

Lemma SerializeMesh_fields M Ar :
  SerializeMesh M Ar = Ar ++ wire_bytes (wire_fields M).
Proof.
  unfold SerializeMesh. rewrite write_indices_fields, write_vertices_fields.
  unfold wire_fields, box_fields, write_int32, write_float.
  rewrite !wire_bytes_app. unfold wire_bytes at 1 2 4.
  cbn [flat_map field_bytes]. rewrite <- !app_assoc, ?app_nil_r.
  cbn [app]. rewrite <- ?app_assoc. reflexivity.
Qed.

Lemma length_flat_map_vertex_fields vs :
  length (flat_map vertex_fields vs) = (7 * length vs)%nat.
Proof.
  induction vs as [|v vs IH]; [reflexivity|].
  cbn [flat_map]. rewrite length_app, IH. simpl length. lia.
Qed.

Lemma length_wire_fields M :
  length (wire_fields M)
  = (8 + 7 * length (ProcVertexBuffer M) + length (ProcIndexBuffer M))%nat.
Proof.
  unfold wire_fields. rewrite !length_app, length_flat_map_vertex_fields, length_map.
  simpl length. lia.
Qed.

Lemma encode_fields M : encode M = wire_bytes (wire_fields M).
Proof. unfold encode. now rewrite SerializeMesh_fields. Qed.

Lemma wire_fields_stream M :
  wire_fields M =
  stream_fields (TArray_Num (ProcVertexBuffer M)) (SectionLocalBox M) (ProcVertexBuffer M)
                (TArray_Num (ProcIndexBuffer M)) (ProcIndexBuffer M).
Proof. reflexivity. Qed.

(* ================================================================== *)
(** ** Reading back what was written *)

Section ReadBack.

Variable G : Indeterminate.

Lemma Serialize4_bytes u rest :
  Serialize4 (mkReader (le_bytes4 u ++ rest) false)
  = (Some (u mod 4294967296), mkReader rest false).
Proof.
  pose proof (le_word4_bytes4_mod u) as H. unfold le_bytes4 in *.
  unfold Serialize4. cbn [ArIsError Remaining app]. now rewrite H.
Qed.

Lemma is_float32_range x : is_float32 x = true -> 0 <= x < 4294967296.
Proof.
  unfold is_float32. intros H. apply andb_true_iff in H. destruct H as [H1 H2].
  apply Z.leb_le in H1. apply Z.ltb_lt in H2. lia.
Qed.

Lemma load_float_field x rest Dst :
  is_float32 x = true ->
  load_float Dst (mkReader (field_bytes (FFloat x) ++ rest) false) = (x, mkReader rest false).
Proof.
  intros H. apply is_float32_range in H. unfold load_float. cbn [field_bytes].
  rewrite Serialize4_bytes, Z.mod_small by lia. reflexivity.
Qed.

(** Four bytes are consumed whatever pattern they hold. *)
Lemma load_float_skip x rest Dst :
  exists y, load_float Dst (mkReader (field_bytes (FFloat x) ++ rest) false)
            = (y, mkReader rest false).
Proof.
  unfold load_float. cbn [field_bytes]. rewrite Serialize4_bytes. eauto.
Qed.

Lemma load_int32_field z rest Dst :
  is_int32 z = true ->
  load_int32 Dst (mkReader (field_bytes (FInt32 z) ++ rest) false) = (z, mkReader rest false).
Proof.
  intros H. unfold load_int32. cbn [field_bytes].
  rewrite Serialize4_bytes.
  rewrite (Z.mod_small (int32_bits z)) by apply int32_bits_range.
  now rewrite int32_of_bits_bits.
Qed.

Lemma wf_vertex_fields V :
  wf_vertex V = true ->
  is_float32 (PositionX V) = true /\ is_float32 (PositionY V) = true
  /\ is_float32 (PositionZ V) = true /\ is_float32 (NormalX V) = true
  /\ is_float32 (NormalY V) = true /\ is_float32 (NormalZ V) = true
  /\ is_int32 (MatIdx V) = true.
Proof.
  unfold wf_vertex. rewrite !andb_true_iff. tauto.
Qed.

Lemma load_vertex_fields V rest Dst :
  wf_vertex V = true ->
  load_vertex Dst (mkReader (wire_bytes (vertex_fields V) ++ rest) false)
  = (V, mkReader rest false).
Proof.
  intros H. apply wf_vertex_fields in H.
  destruct H as (H1 & H2 & H3 & H4 & H5 & H6 & H7).
  unfold load_vertex, rbind, rret, wire_bytes, vertex_fields. cbn [flat_map].
  rewrite <- !app_assoc, app_nil_l.
  rewrite !load_float_field by assumption.
  rewrite load_int32_field by assumption.
  destruct V; reflexivity.
Qed.

Lemma load_vertices_fields vs : forall Idx M rest,
  forallb wf_vertex vs = true ->
  load_vertices G (length vs) Idx M
    (mkReader (wire_bytes (flat_map vertex_fields vs) ++ rest) false)
  = (AddVertices M vs, mkReader rest false).
Proof.
  induction vs as [|v vs IH]; intros Idx M rest Hwf.
  - reflexivity.
  - cbn [forallb] in Hwf. apply andb_true_iff in Hwf. destruct Hwf as [Hv Hvs].
    cbn [length load_vertices flat_map]. unfold rbind.
    rewrite wire_bytes_app, <- app_assoc, load_vertex_fields by assumption.
    rewrite IH by assumption. reflexivity.
Qed.

Lemma load_indices_fields xs : forall Idx M rest,
  forallb is_int32 xs = true ->
  load_indices G (length xs) Idx M
    (mkReader (wire_bytes (map FInt32 xs) ++ rest) false)
  = (AddIndices M xs, mkReader rest false).
Proof.
  induction xs as [|x xs IH]; intros Idx M rest Hwf.
  - reflexivity.
  - cbn [forallb] in Hwf. apply andb_true_iff in Hwf. destruct Hwf as [Hx Hxs].
    cbn [length load_indices map]. unfold rbind, wire_bytes. cbn [flat_map].
    rewrite <- app_assoc, load_int32_field by assumption.
    fold (wire_bytes (map FInt32 xs)). rewrite IH by assumption. reflexivity.
Qed.

(** The decoder on a stream of the wire shape, with counts that may be
    negative: a loop runs [Z.to_nat] of its count. *)
Lemma DeserializeMesh_stream M VertexNum B Vertices IndexNum Indices rest :
  is_int32 VertexNum = true ->
  is_int32 IndexNum = true ->
  length Vertices = Z.to_nat VertexNum ->
  length Indices = Z.to_nat IndexNum ->
  forallb wf_vertex Vertices = true ->
  forallb is_int32 Indices = true ->
  DeserializeMesh G M
    (mkReader (wire_bytes (stream_fields VertexNum B Vertices IndexNum Indices) ++ rest) false)
  = (AddIndices (AddVertices M Vertices) Indices, mkReader rest false).
Proof.
  intros Hnv Hni Hlv Hli Hv Hi.
  unfold DeserializeMesh, rbind, stream_fields, box_fields.
  rewrite !wire_bytes_app. unfold wire_bytes at 1 2 4. cbn [flat_map].
  rewrite <- !app_assoc, ?app_nil_r. cbn [app].
  rewrite load_int32_field by assumption.
  repeat match goal with
  | |- context [load_float ?d (mkReader (field_bytes (FFloat ?x) ++ ?r) false)] =>
      let y := fresh "y" in let E := fresh "E" in
      destruct (load_float_skip x r d) as [y E]; rewrite E; clear E
  end.
  rewrite <- Hlv, load_vertices_fields by assumption.
  rewrite load_int32_field by assumption.
  rewrite <- Hli, load_indices_fields by assumption.
  reflexivity.
Qed.

Lemma wf_buffers_parts M :
  wf_buffers M = true ->
  forallb wf_vertex (ProcVertexBuffer M) = true
  /\ forallb is_int32 (ProcIndexBuffer M) = true
  /\ is_int32 (TArray_Num (ProcVertexBuffer M)) = true
  /\ is_int32 (TArray_Num (ProcIndexBuffer M)) = true.
Proof.
  unfold wf_buffers, is_int32, TArray_Num. rewrite !andb_true_iff.
  intros [[[Hv Hi] Hnv] Hni]. repeat split; try assumption.
  - apply Z.leb_le. lia.
  - apply Z.leb_le. lia.
Qed.

(** Decoding an encoded section into [M0] replays its two buffers onto
    [M0] and leaves the archive at the end, without error. *)
Lemma DeserializeMesh_encode M0 M rest :
  wf_buffers M = true ->
  DeserializeMesh G M0 (mkReader (encode M ++ rest) false)
  = (AddIndices (AddVertices M0 (ProcVertexBuffer M)) (ProcIndexBuffer M),
     mkReader rest false).
Proof.
  intros Hwf. apply wf_buffers_parts in Hwf. destruct Hwf as (Hv & Hi & Hnv & Hni).
  rewrite encode_fields, wire_fields_stream.
  apply DeserializeMesh_stream; try assumption; unfold TArray_Num; now rewrite Nat2Z.id.
Qed.

Lemma decode_encode M0 M :
  wf_buffers M = true ->
  decode G M0 (encode M)
  = (AddIndices (AddVertices M0 (ProcVertexBuffer M)) (ProcIndexBuffer M),
     mkReader [] false).
Proof.
  intros Hwf. unfold decode, FMemoryReader_new.
  rewrite <- (app_nil_r (encode M)) at 1. now apply DeserializeMesh_encode.
Qed.

(** *** The stored box is skipped, whatever the stream *)

Lemma load_float_skips_four Dst r :
  (4 <= length r)%nat ->
  exists y, load_float Dst (mkReader r false) = (y, mkReader (skipn 4 r) false).
Proof.
  intros H. destruct r as [|b0 [|b1 [|b2 [|b3 r]]]]; cbn [length] in H; try lia.
  eexists. reflexivity.
Qed.

(** Six float reads whose results nothing uses amount to moving the cursor
    24 bytes on. *)
Lemma six_floats_skipped {A} (K : Reading A) d r :
  (24 <= length r)%nat ->
  (MinX <<- load_float d ;; MinY <<- load_float d ;; MinZ <<- load_float d ;;
   MaxX <<- load_float d ;; MaxY <<- load_float d ;; MaxZ <<- load_float d ;; K)
    (mkReader r false)
  = K (mkReader (skipn 24 r) false).
Proof.
  intros H.
  do 6 (unfold rbind at 1;
        match goal with
        | |- context [load_float d (mkReader ?r0 false)] =>
            let y := fresh "y" in let E := fresh "E" in
            destruct (load_float_skips_four d r0) as [y E];
            [repeat rewrite length_skipn; lia | rewrite E; clear E]
        end).
  rewrite !skipn_skipn. reflexivity.
Qed.

(** The decoder behind the header: only the count of the first four bytes
    and the bytes after the box matter. *)
Lemma DeserializeMesh_behind_box M0 hdr box tail :
  length hdr = 4%nat -> length box = 24%nat ->
  DeserializeMesh G M0 (mkReader (hdr ++ box ++ tail) false)
  = (M <<- load_vertices G (Z.to_nat (int32_of_bits (peek32 hdr 0))) 0 M0 ;;
     IndexNum <<- load_int32 (IndexNum0 G) ;;
     load_indices G (Z.to_nat IndexNum) 0 M) (mkReader tail false).
Proof.
  intros Hh Hb.
  destruct hdr as [|b0 [|b1 [|b2 [|b3 [|]]]]]; try discriminate Hh.
  unfold DeserializeMesh. unfold rbind at 1.
  unfold load_int32, Serialize4. cbn [ArIsError Remaining app].
  rewrite six_floats_skipped by (rewrite length_app; lia).
  rewrite (skipn_exact box tail 24 Hb). reflexivity.
Qed.

(** Two streams that differ only in the 24 bytes of the stored box decode
    alike. *)
Lemma DeserializeMesh_ignores_stored_box M0 hdr box box' tail :
  length hdr = 4%nat -> length box = 24%nat -> length box' = 24%nat ->
  DeserializeMesh G M0 (mkReader (hdr ++ box ++ tail) false)
  = DeserializeMesh G M0 (mkReader (hdr ++ box' ++ tail) false).
Proof.
  intros Hh Hb Hb'. now rewrite !DeserializeMesh_behind_box.
Qed.

End ReadBack.

(* ================================================================== *)
(** ** The float order and the box *)

Lemma f32_le_refl a : ordered_float a = true -> f32_le a a = true.
Proof.
  unfold ordered_float, f32_le. intros H. rewrite H. cbn [andb]. apply Z.leb_refl.
Qed.

Lemma f32_le_total a b :
  ordered_float a = true -> ordered_float b = true ->
  f32_le a b = false -> f32_le b a = true.
Proof.
  unfold ordered_float, f32_le. intros Ha Hb. rewrite Ha, Hb. cbn [andb].
  intros H. apply Z.leb_gt in H. apply Z.leb_le. lia.
Qed.

Lemma f32_le_trans a b c :
  f32_le a b = true -> f32_le b c = true -> f32_le a c = true.
Proof.
  unfold f32_le. rewrite !andb_true_iff.
  intros [[Ha Hb] Hab] [[_ Hc] Hbc]. repeat split; try assumption.
  apply Z.leb_le in Hab. apply Z.leb_le in Hbc. apply Z.leb_le. lia.
Qed.

(** [FMath::Min] of two ordered floats is one of them and is below both. *)
Lemma FMath_Min_spec a b :
  ordered_float a = true -> ordered_float b = true ->
  (FMath_Min a b = a \/ FMath_Min a b = b)
  /\ f32_le (FMath_Min a b) a = true /\ f32_le (FMath_Min a b) b = true.
Proof.
  intros Ha Hb. unfold FMath_Min. destruct (f32_le a b) eqn:E.
  - repeat split; auto using f32_le_refl.
  - repeat split; auto using f32_le_refl, f32_le_total.
Qed.

Lemma FMath_Max_spec a b :
  ordered_float a = true -> ordered_float b = true ->
  (FMath_Max a b = a \/ FMath_Max a b = b)
  /\ f32_le a (FMath_Max a b) = true /\ f32_le b (FMath_Max a b) = true.
Proof.
  intros Ha Hb. unfold FMath_Max, f32_ge. destruct (f32_le b a) eqn:E.
  - repeat split; auto using f32_le_refl.
  - repeat split; auto using f32_le_refl, f32_le_total.
Qed.

Lemma fold_Min_is_min xs : forall x0,
  ordered_float x0 = true -> forallb ordered_float xs = true ->
  is_min_of (fold_left FMath_Min xs x0) (x0 :: xs).
Proof.
  induction xs as [|x xs IH]; intros x0 H0 Hxs.
  - split; [now left|]. intros y [<-|[]]. now apply f32_le_refl.
  - cbn [forallb] in Hxs. apply andb_true_iff in Hxs. destruct Hxs as [Hx Hxs].
    destruct (FMath_Min_spec x0 x H0 Hx) as (Hsel & Hl0 & Hlx).
    assert (Hm : ordered_float (FMath_Min x0 x) = true)
      by (destruct Hsel as [-> | ->]; assumption).
    destruct (IH _ Hm Hxs) as [Hin Hle]. cbn [fold_left]. split.
    + destruct Hin as [E | Hin].
      * rewrite <- E. destruct Hsel as [-> | ->]; [now left | right; now left].
      * right; right; exact Hin.
    + assert (Hr : f32_le (fold_left FMath_Min xs (FMath_Min x0 x)) (FMath_Min x0 x) = true)
        by (apply Hle; now left).
      intros y [<- | [<- | Hy]].
      * eapply f32_le_trans; eassumption.
      * eapply f32_le_trans; eassumption.
      * apply Hle. now right.
Qed.

Lemma fold_Max_is_max xs : forall x0,
  ordered_float x0 = true -> forallb ordered_float xs = true ->
  is_max_of (fold_left FMath_Max xs x0) (x0 :: xs).
Proof.
  induction xs as [|x xs IH]; intros x0 H0 Hxs.
  - split; [now left|]. intros y [<-|[]]. now apply f32_le_refl.
  - cbn [forallb] in Hxs. apply andb_true_iff in Hxs. destruct Hxs as [Hx Hxs].
    destruct (FMath_Max_spec x0 x H0 Hx) as (Hsel & Hl0 & Hlx).
    assert (Hm : ordered_float (FMath_Max x0 x) = true)
      by (destruct Hsel as [-> | ->]; assumption).
    destruct (IH _ Hm Hxs) as [Hin Hle]. cbn [fold_left]. split.
    + destruct Hin as [E | Hin].
      * rewrite <- E. destruct Hsel as [-> | ->]; [now left | right; now left].
      * right; right; exact Hin.
    + assert (Hr : f32_le (FMath_Max x0 x) (fold_left FMath_Max xs (FMath_Max x0 x)) = true)
        by (apply Hle; now left).
      intros y [<- | [<- | Hy]].
      * eapply f32_le_trans; eassumption.
      * eapply f32_le_trans; eassumption.
      * apply Hle. now right.
Qed.

(** Once the box is valid, [+=] folds each coordinate on its own. *)
Lemma FBox_AddPoints_valid ps : forall mn mx,
  FBox_AddPoints (mkFBox mn mx true) ps =
  mkFBox
    (mkFVector (fold_left FMath_Min (map VecX ps) (VecX mn))
               (fold_left FMath_Min (map VecY ps) (VecY mn))
               (fold_left FMath_Min (map VecZ ps) (VecZ mn)))
    (mkFVector (fold_left FMath_Max (map VecX ps) (VecX mx))
               (fold_left FMath_Max (map VecY ps) (VecY mx))
               (fold_left FMath_Max (map VecZ ps) (VecZ mx)))
    true.
Proof.
  induction ps as [|p ps IH]; intros mn mx.
  - destruct mn, mx; reflexivity.
  - unfold FBox_AddPoints in *. cbn [fold_left map].
    unfold FBox_AddPoint at 2. cbn [IsValid Min Max]. rewrite IH. reflexivity.
Qed.

Lemma forallb_ordered_axes ps :
  forallb ordered_point ps = true ->
  forallb ordered_float (map VecX ps) = true
  /\ forallb ordered_float (map VecY ps) = true
  /\ forallb ordered_float (map VecZ ps) = true.
Proof.
  induction ps as [|p ps IH]; [now repeat split|].
  cbn [forallb map]. unfold ordered_point at 1. rewrite !andb_true_iff.
  intros [[[Hx Hy] Hz] Hps]. destruct (IH Hps) as (IHx & IHy & IHz). tauto.
Qed.

(** From the empty box, [+=] over a non-empty run of ordered points builds
    their tight bound. *)
Lemma FBox_AddPoints_tight ps :
  ps <> [] -> forallb ordered_point ps = true ->
  tight_bound (FBox_AddPoints FBox_Init ps) ps.
Proof.
  destruct ps as [|p ps]; [congruence|]. intros _ Hord.
  apply forallb_ordered_axes in Hord. cbn [map forallb] in Hord.
  rewrite !andb_true_iff in Hord. destruct Hord as ([Hx Hxs] & [Hy Hys] & [Hz Hzs]).
  unfold FBox_AddPoints. cbn [fold_left].
  change (FBox_AddPoint FBox_Init p) with (mkFBox p p true).
  fold (FBox_AddPoints (mkFBox p p true) ps). rewrite FBox_AddPoints_valid.
  unfold tight_bound. cbn [IsValid Min Max VecX VecY VecZ map].
  repeat split;
    first [ apply fold_Min_is_min; assumption | apply fold_Max_is_max; assumption ].
Qed.

(* ================================================================== *)
(** ** The bulk reader on a written stream *)

Lemma raw_read_exact mem rest n :
  length mem = n -> raw_read n (mem ++ rest) = Some (mem, rest).
Proof.
  intros H. unfold raw_read.
  assert (E : (length (mem ++ rest) <? n)%nat = false)
    by (apply Nat.ltb_ge; rewrite length_app; lia).
  rewrite E, firstn_exact, skipn_exact by assumption. reflexivity.
Qed.

Lemma peek32_head u mem :
  peek32 (le_bytes4 u ++ mem) 0 = u mod 4294967296.
Proof.
  pose proof (le_word4_bytes4_mod u) as H. unfold le_bytes4 in *.
  unfold peek32. cbn [app nth Nat.add]. exact H.
Qed.

Lemma peek32_next u mem off :
  peek32 (le_bytes4 u ++ mem) (4 + off) = peek32 mem off.
Proof. unfold peek32, le_bytes4. cbn [app nth Nat.add]. reflexivity. Qed.

Lemma peek32_float x mem :
  is_float32 x = true -> peek32 (field_bytes (FFloat x) ++ mem) 0 = x.
Proof.
  intros H. apply is_float32_range in H. cbn [field_bytes].
  rewrite peek32_head. now apply Z.mod_small.
Qed.

Lemma peek32_int32 z mem :
  is_int32 z = true -> int32_of_bits (peek32 (field_bytes (FInt32 z) ++ mem) 0) = z.
Proof.
  intros H. cbn [field_bytes]. rewrite peek32_head.
  rewrite (Z.mod_small (int32_bits z)) by apply int32_bits_range.
  now apply int32_of_bits_bits.
Qed.

Lemma peek32_skip_field f mem off :
  peek32 (field_bytes f ++ mem) (4 + off) = peek32 mem off.
Proof. destruct f; apply peek32_next. Qed.

Lemma readObj_int32_field z rest :
  is_int32 z = true -> readObj_int32 (field_bytes (FInt32 z) ++ rest) = Some (z, rest).
Proof.
  intros H. unfold readObj_int32.
  rewrite raw_read_exact by apply length_field_bytes. cbn [obind].
  rewrite <- (app_nil_r (field_bytes (FInt32 z))), peek32_int32 by assumption.
  reflexivity.
Qed.

Lemma float_array_fields xs : forall mem,
  forallb is_float32 xs = true ->
  float_array (length xs) (wire_bytes (map FFloat xs) ++ mem) = xs.
Proof.
  induction xs as [|x xs IH]; intros mem H; [reflexivity|].
  cbn [forallb] in H. apply andb_true_iff in H. destruct H as [Hx Hxs].
  cbn [length float_array map]. unfold wire_bytes. cbn [flat_map].
  rewrite <- app_assoc, peek32_float by assumption.
  rewrite skipn_exact by apply length_field_bytes.
  fold (wire_bytes (map FFloat xs)). now rewrite IH.
Qed.

Lemma int32_array_fields xs : forall mem,
  forallb is_int32 xs = true ->
  int32_array (length xs) (wire_bytes (map FInt32 xs) ++ mem) = xs.
Proof.
  induction xs as [|x xs IH]; intros mem H; [reflexivity|].
  cbn [forallb] in H. apply andb_true_iff in H. destruct H as [Hx Hxs].
  cbn [length int32_array map]. unfold wire_bytes. cbn [flat_map].
  rewrite <- app_assoc, peek32_int32 by assumption.
  rewrite skipn_exact by apply length_field_bytes.
  fold (wire_bytes (map FInt32 xs)). now rewrite IH.
Qed.

Lemma le_word4_float x :
  is_float32 x = true ->
  le_word4 (byte_of_Z x) (byte_of_Z (Z.shiftr x 8))
           (byte_of_Z (Z.shiftr x 16)) (byte_of_Z (Z.shiftr x 24)) = x.
Proof.
  intros H. apply is_float32_range in H.
  pose proof (le_word4_bytes4_mod x) as E. unfold le_bytes4 in E.
  rewrite E. now apply Z.mod_small.
Qed.

Lemma le_word4_int32 z :
  is_int32 z = true ->
  int32_of_bits
    (le_word4 (byte_of_Z (int32_bits z)) (byte_of_Z (Z.shiftr (int32_bits z) 8))
              (byte_of_Z (Z.shiftr (int32_bits z) 16))
              (byte_of_Z (Z.shiftr (int32_bits z) 24))) = z.
Proof.
  intros H. pose proof (le_word4_bytes4_mod (int32_bits z)) as E. unfold le_bytes4 in E.
  rewrite E, (Z.mod_small (int32_bits z)) by apply int32_bits_range.
  now apply int32_of_bits_bits.
Qed.

Lemma vertex_of_memory_fields V mem :
  wf_vertex V = true ->
  vertex_of_memory (wire_bytes (vertex_fields V) ++ mem) = V.
Proof.
  intros H. apply wf_vertex_fields in H.
  destruct H as (H1 & H2 & H3 & H4 & H5 & H6 & H7).
  unfold vertex_of_memory, peek32, wire_bytes, vertex_fields, field_bytes, le_bytes4.
  cbn [flat_map app nth Nat.add].
  rewrite !le_word4_float by assumption. rewrite le_word4_int32 by assumption.
  destruct V; reflexivity.
Qed.

Lemma length_vertex_bytes V : length (wire_bytes (vertex_fields V)) = sizeof_FProcMeshVertex.
Proof. reflexivity. Qed.

Lemma vertex_array_fields vs : forall mem,
  forallb wf_vertex vs = true ->
  vertex_array (length vs) (wire_bytes (flat_map vertex_fields vs) ++ mem) = vs.
Proof.
  induction vs as [|v vs IH]; intros mem H; [reflexivity|].
  cbn [forallb] in H. apply andb_true_iff in H. destruct H as [Hv Hvs].
  cbn [length vertex_array flat_map].
  rewrite wire_bytes_app, <- app_assoc, vertex_of_memory_fields by assumption.
  rewrite skipn_exact by apply length_vertex_bytes. now rewrite IH.
Qed.

Lemma read_floats_fields xs rest :
  forallb is_float32 xs = true ->
  read_floats (length xs) (wire_bytes (map FFloat xs) ++ rest) = Some (xs, rest).
Proof.
  intros H. unfold read_floats.
  rewrite raw_read_exact by (rewrite length_wire_bytes, length_map; reflexivity).
  cbn [obind]. rewrite <- (app_nil_r (wire_bytes _)), float_array_fields by assumption.
  reflexivity.
Qed.

Lemma read_int32s_fields xs rest :
  forallb is_int32 xs = true ->
  read_int32s (length xs) (wire_bytes (map FInt32 xs) ++ rest) = Some (xs, rest).
Proof.
  intros H. unfold read_int32s.
  rewrite raw_read_exact by (rewrite length_wire_bytes, length_map; reflexivity).
  cbn [obind]. rewrite <- (app_nil_r (wire_bytes _)), int32_array_fields by assumption.
  reflexivity.
Qed.

Lemma read_vertices_fields vs rest :
  forallb wf_vertex vs = true ->
  read_vertices (length vs) (wire_bytes (flat_map vertex_fields vs) ++ rest) = Some (vs, rest).
Proof.
  intros H. unfold read_vertices.
  rewrite raw_read_exact
    by (rewrite length_wire_bytes, length_flat_map_vertex_fields;
        unfold sizeof_FProcMeshVertex; lia).
  cbn [obind]. rewrite <- (app_nil_r (wire_bytes _)), vertex_array_fields by assumption.
  reflexivity.
Qed.

Lemma wf_box_corners B :
  wf_box B = true ->
  forallb is_float32 [VecX (Min B); VecY (Min B); VecZ (Min B)] = true
  /\ forallb is_float32 [VecX (Max B); VecY (Max B); VecZ (Max B)] = true.
Proof.
  unfold wf_box, wf_vector. cbn [forallb]. rewrite !andb_true_iff. tauto.
Qed.

(** The bulk decoder on an encoded section: the two buffers as stored, and
    the stored corners as the box. *)
Lemma DeserializeMeshFast_encode M0 M rest :
  wf_buffers M = true ->
  wf_box (SectionLocalBox M) = true ->
  DeserializeMeshFast M0 (encode M ++ rest)
  = Some (mkSection (ProcVertexBuffer M) (ProcIndexBuffer M)
            (FBox_MinMax (Min (SectionLocalBox M)) (Max (SectionLocalBox M))),
          rest).
Proof.
  intros Hwf Hbox. apply wf_buffers_parts in Hwf. destruct Hwf as (Hv & Hi & Hnv & Hni).
  apply wf_box_corners in Hbox. destruct Hbox as [Hmin Hmax].
  rewrite encode_fields. unfold wire_fields, box_fields, DeserializeMeshFast.
  set (mn := [VecX (Min (SectionLocalBox M)); VecY (Min (SectionLocalBox M));
              VecZ (Min (SectionLocalBox M))]) in *.
  set (mx := [VecX (Max (SectionLocalBox M)); VecY (Max (SectionLocalBox M));
              VecZ (Max (SectionLocalBox M))]) in *.
  change [FFloat (VecX (Min (SectionLocalBox M))); FFloat (VecY (Min (SectionLocalBox M)));
          FFloat (VecZ (Min (SectionLocalBox M))); FFloat (VecX (Max (SectionLocalBox M)));
          FFloat (VecY (Max (SectionLocalBox M))); FFloat (VecZ (Max (SectionLocalBox M)))]
    with (map FFloat mn ++ map FFloat mx).
  rewrite !wire_bytes_app, <- !app_assoc.
  change (wire_bytes [FInt32 (TArray_Num (ProcVertexBuffer M))])
    with (field_bytes (FInt32 (TArray_Num (ProcVertexBuffer M))) ++ []).
  change (wire_bytes [FInt32 (TArray_Num (ProcIndexBuffer M))])
    with (field_bytes (FInt32 (TArray_Num (ProcIndexBuffer M))) ++ []).
  rewrite <- !app_assoc. cbn [app].
  rewrite readObj_int32_field by assumption. cbn [obind].
  change 3%nat with (length mn) at 1. rewrite read_floats_fields by assumption. cbn [obind].
  change 3%nat with (length mx) at 1. rewrite read_floats_fields by assumption. cbn [obind].
  assert (E1 : (TArray_Num (ProcVertexBuffer M) <? 0) = false)
    by (apply Z.ltb_ge; unfold TArray_Num; lia).
  assert (E2 : (TArray_Num (ProcIndexBuffer M) <? 0) = false)
    by (apply Z.ltb_ge; unfold TArray_Num; lia).
  rewrite E1. unfold TArray_Num at 1. rewrite Nat2Z.id.
  rewrite read_vertices_fields by assumption. cbn [obind].
  rewrite readObj_int32_field by assumption. cbn [obind].
  rewrite E2. unfold TArray_Num at 1. rewrite Nat2Z.id.
  rewrite read_int32s_fields by assumption. cbn [obind].
  subst mn mx. unfold FVector_of_array. cbn [nth].
  destruct (SectionLocalBox M) as [[a b c] [d e f] v]. reflexivity.
Qed.

(* ================================================================== *)
(** ** Streams that end early *)

Section Truncation.

Variable G : Indeterminate.

Lemma Serialize4_prefix_closed : prefix_closed Serialize4.
Proof.
  intros [r e] H. unfold Serialize4 in *. cbn [ArIsError Remaining] in *.
  destruct e; [discriminate H|]. split; [reflexivity|]. intros more.
  destruct r as [|b0 [|b1 [|b2 [|b3 r]]]]; try discriminate H. reflexivity.
Qed.

Lemma load_float_prefix_closed Dst : prefix_closed (load_float Dst).
Proof.
  intros Ar H. unfold load_float in *.
  destruct (Serialize4_prefix_closed Ar) as [H0 Hext].
  - destruct (Serialize4 Ar) as [[u|] Ar']; exact H.
  - split; [exact H0|]. intros more. rewrite Hext.
    destruct (Serialize4 Ar) as [[u|] Ar']; reflexivity.
Qed.

Lemma load_int32_prefix_closed Dst : prefix_closed (load_int32 Dst).
Proof.
  intros Ar H. unfold load_int32 in *.
  destruct (Serialize4_prefix_closed Ar) as [H0 Hext].
  - destruct (Serialize4 Ar) as [[u|] Ar']; exact H.
  - split; [exact H0|]. intros more. rewrite Hext.
    destruct (Serialize4 Ar) as [[u|] Ar']; reflexivity.
Qed.

Lemma rret_prefix_closed {A} (a : A) : prefix_closed (rret a).
Proof.
  intros [r e] H. cbn in H. subst e. split; [reflexivity|]. reflexivity.
Qed.

Lemma rbind_prefix_closed {A B} (f : Reading A) (g : A -> Reading B) :
  prefix_closed f -> (forall a, prefix_closed (g a)) -> prefix_closed (rbind f g).
Proof.
  intros Hf Hg Ar H. unfold rbind in *.
  destruct (f Ar) as [a Ar1] eqn:Ef.
  destruct (Hg a Ar1 H) as [H1 Hgext].
  destruct (Hf Ar) as [H0 Hfext]; [now rewrite Ef|].
  split; [exact H0|]. intros more.
  rewrite Hfext, Ef. cbn [fst snd]. apply Hgext.
Qed.

Create HintDb reading.
Hint Resolve load_float_prefix_closed load_int32_prefix_closed
  rret_prefix_closed rbind_prefix_closed : reading.

Lemma load_vertex_prefix_closed V : prefix_closed (load_vertex V).
Proof. unfold load_vertex. auto 10 with reading. Qed.

Lemma load_vertices_prefix_closed n : forall Idx M,
  prefix_closed (load_vertices G n Idx M).
Proof.
  induction n as [|n IH]; intros Idx M; cbn [load_vertices];
    auto using load_vertex_prefix_closed with reading.
Qed.

Lemma load_indices_prefix_closed n : forall Idx M,
  prefix_closed (load_indices G n Idx M).
Proof.
  induction n as [|n IH]; intros Idx M; cbn [load_indices]; auto with reading.
Qed.

Hint Resolve load_vertices_prefix_closed load_indices_prefix_closed : reading.

Lemma DeserializeMesh_prefix_closed M : prefix_closed (DeserializeMesh G M).
Proof. unfold DeserializeMesh. auto 12 with reading. Qed.

(** A strict prefix of an encoded section always trips the flag. *)
Lemma truncated_flags_error M0 M n :
  wf_buffers M = true ->
  (n < length (encode M))%nat ->
  decode_flags_error G M0 (firstn n (encode M)) = true.
Proof.
  intros Hwf Hn. unfold decode_flags_error, decode, FMemoryReader_new.
  destruct (ArIsError (snd (DeserializeMesh G M0 (mkReader (firstn n (encode M)) false))))
    eqn:E; [reflexivity|exfalso].
  destruct (DeserializeMesh_prefix_closed M0 _ E) as [_ Hext].
  specialize (Hext (skipn n (encode M))). cbn [Remaining] in Hext.
  rewrite firstn_skipn in Hext.
  rewrite <- (app_nil_r (encode M)) in Hext at 1.
  rewrite (DeserializeMesh_encode G M0 M [] Hwf) in Hext.
  injection Hext as _ Hrem.
  symmetry in Hrem. apply app_eq_nil in Hrem. destruct Hrem as [_ Hskip].
  apply (f_equal (@length byte)) in Hskip. rewrite length_skipn in Hskip.
  cbn [length] in Hskip. lia.
Qed.

(** Whatever the stream, a decode call only appends to the section. *)
Lemma load_vertices_extends n : forall Idx M Ar,
  exists vs, fst (load_vertices G n Idx M Ar) = AddVertices M vs.
Proof.
  induction n as [|n IH]; intros Idx M Ar; cbn [load_vertices].
  - exists []. reflexivity.
  - unfold rbind. destruct (load_vertex (Vertex0 G Idx) Ar) as [V Ar1].
    destruct (IH (S Idx) (AddVertex M V) Ar1) as [vs E].
    exists (V :: vs). exact E.
Qed.

Lemma load_indices_extends n : forall Idx M Ar,
  exists xs, fst (load_indices G n Idx M Ar) = AddIndices M xs.
Proof.
  induction n as [|n IH]; intros Idx M Ar; cbn [load_indices].
  - exists []. reflexivity.
  - unfold rbind. destruct (load_int32 (Index0 G Idx) Ar) as [i Ar1].
    destruct (IH (S Idx) (AddIndex M i) Ar1) as [xs E].
    exists (i :: xs). exact E.
Qed.

Lemma DeserializeMesh_extends M0 Ar :
  extends_section M0 (fst (DeserializeMesh G M0 Ar)).
Proof.
  unfold DeserializeMesh, rbind.
  repeat match goal with
  | |- context [let '(_, _) := ?f ?d ?a in _] =>
      lazymatch f with
      | load_int32 => destruct (load_int32 d a) as [? ?]
      | load_float => destruct (load_float d a) as [? ?]
      end
  end.
  match goal with
  | |- context [load_vertices G ?n 0%nat M0 ?a] =>
      destruct (load_vertices_extends n 0%nat M0 a) as [vs Ev];
      destruct (load_vertices G n 0%nat M0 a) as [M1 Ar1]
  end.
  cbn [fst] in Ev. subst M1.
  destruct (load_int32 (IndexNum0 G) Ar1) as [ni Ar2].
  destruct (load_indices_extends (Z.to_nat ni) 0%nat (AddVertices M0 vs) Ar2) as [xs Ex].
  exists vs, xs. exact Ex.
Qed.

(** The vertex loop on a stream that starts with whole records: they are
    added as written, and the loop goes on behind them. *)
Lemma load_vertices_whole_records ws : forall j Idx M tail,
  forallb wf_vertex ws = true ->
  load_vertices G (length ws + j) Idx M
    (mkReader (wire_bytes (flat_map vertex_fields ws) ++ tail) false)
  = load_vertices G j (Idx + length ws) (AddVertices M ws) (mkReader tail false).
Proof.
  induction ws as [|w ws IH]; intros j Idx M tail Hwf.
  - cbn [length flat_map Nat.add]. rewrite Nat.add_0_r. reflexivity.
  - cbn [forallb] in Hwf. apply andb_true_iff in Hwf. destruct Hwf as [Hw Hws].
    cbn [length Nat.add load_vertices flat_map]. unfold rbind.
    rewrite wire_bytes_app, <- app_assoc, load_vertex_fields by assumption.
    rewrite IH by assumption. rewrite Nat.add_succ_r. reflexivity.
Qed.

Lemma forallb_firstn {A} (p : A -> bool) k (l : list A) :
  forallb p l = true -> forallb p (firstn k l) = true.
Proof.
  revert k. induction l as [|x l IH]; intros [|k] H; try reflexivity.
  cbn [forallb firstn] in *. apply andb_true_iff in H. destruct H as [Hx Hl].
  rewrite Hx. cbn [andb]. now apply IH.
Qed.

(** A prefix that reaches past the first [k] vertex records still starts
    with the header and those records. *)
Lemma firstn_encode_records M k n :
  (k <= length (ProcVertexBuffer M))%nat ->
  (28 + 28 * k <= n)%nat ->
  exists tail,
    firstn n (encode M)
    = wire_bytes ([FInt32 (TArray_Num (ProcVertexBuffer M))]
                  ++ box_fields (SectionLocalBox M))
      ++ wire_bytes (flat_map vertex_fields (firstn k (ProcVertexBuffer M))) ++ tail.
Proof.
  intros Hk Hn. rewrite encode_fields. unfold wire_fields.
  assert (E : flat_map vertex_fields (ProcVertexBuffer M)
              = flat_map vertex_fields (firstn k (ProcVertexBuffer M))
                ++ flat_map vertex_fields (skipn k (ProcVertexBuffer M)))
    by (rewrite <- flat_map_app, firstn_skipn; reflexivity).
  rewrite E, <- !app_assoc. clear E.
  set (hdr := [FInt32 (TArray_Num (ProcVertexBuffer M))]).
  rewrite (app_assoc hdr), !wire_bytes_app, <- !app_assoc.
  rewrite (app_assoc (wire_bytes hdr)), <- wire_bytes_app.
  set (head := wire_bytes (hdr ++ box_fields (SectionLocalBox M))).
  set (recs := wire_bytes (flat_map vertex_fields (firstn k (ProcVertexBuffer M)))).
  assert (Hhead : length head = 28%nat) by reflexivity.
  assert (Hrecs : length recs = (28 * k)%nat).
  { subst recs. rewrite length_wire_bytes, length_flat_map_vertex_fields, length_firstn. lia. }
  rewrite (app_assoc head recs).
  rewrite firstn_app, (firstn_all2 (head ++ recs))
    by (rewrite length_app; lia).
  rewrite <- app_assoc. eexists. reflexivity.
Qed.

(** The part of the decoder behind the vertex loop only appends indices. *)
Lemma index_part_extends M Ar :
  exists xs,
    fst (rbind (load_int32 (IndexNum0 G))
               (fun IndexNum => load_indices G (Z.to_nat IndexNum) 0 M) Ar)
    = AddIndices M xs.
Proof.
  unfold rbind. destruct (load_int32 (IndexNum0 G) Ar) as [ni Ar1].
  apply load_indices_extends.
Qed.

(** Every vertex record that lies wholly in the prefix reaches the section
    as it was written. *)
Lemma truncated_keeps_whole_records M0 M k n :
  wf_buffers M = true ->
  (k <= length (ProcVertexBuffer M))%nat ->
  (28 + 28 * k <= n)%nat ->
  extends_section (AddVertices M0 (firstn k (ProcVertexBuffer M)))
                  (fst (decode G M0 (firstn n (encode M)))).
Proof.
  intros Hwf Hk Hn. apply wf_buffers_parts in Hwf. destruct Hwf as (Hv & Hi & Hnv & Hni).
  destruct (firstn_encode_records M k n Hk Hn) as [tail ->].
  unfold decode, FMemoryReader_new, DeserializeMesh, box_fields.
  rewrite !wire_bytes_app. unfold wire_bytes at 1 2. cbn [flat_map].
  rewrite <- !app_assoc, ?app_nil_r. cbn [app].
  unfold rbind at 1. rewrite load_int32_field by assumption.
  do 6 (unfold rbind at 1;
        match goal with
        | |- context [load_float ?d (mkReader (field_bytes (FFloat ?x) ++ ?r) false)] =>
            let y := fresh "y" in let E := fresh "E" in
            destruct (load_float_skip x r d) as [y E]; rewrite E; clear E
        end).
  unfold rbind at 1.
  set (ws := firstn k (ProcVertexBuffer M)).
  assert (Hlen : Z.to_nat (TArray_Num (ProcVertexBuffer M))
                 = (length ws + (length (ProcVertexBuffer M) - k))%nat).
  { unfold TArray_Num. rewrite Nat2Z.id. subst ws. rewrite length_firstn. lia. }
  rewrite Hlen, load_vertices_whole_records by (apply forallb_firstn; assumption).
  match goal with
  | |- context [load_vertices G ?j ?i ?m ?a] =>
      destruct (load_vertices_extends j i m a) as [vs Ev];
      destruct (load_vertices G j i m a) as [M1 Ar1]
  end.
  cbn [fst] in Ev. subst M1.
  destruct (index_part_extends (AddVertices (AddVertices M0 ws) vs) Ar1) as [xs Ex].
  exists vs, xs. exact Ex.
Qed.

End Truncation.

(* ================================================================== *)
(** * The properties *)

Import Sample Streams.

(** ** Round trip *)

(** C1. For a section built from a newly constructed one by any sequence of
    [AddVertex] calls and index appends, decoding the bytes written by
    [SerializeMesh] into a new section with [DeserializeMesh] gives back the
    very same section - vertex buffer, index buffer and box, every scalar bit
    for bit - and leaves the archive at its end without error.  The
    hypothesis states that the buffers hold 32-bit scalars and fewer than
    2^31 elements, as the C++ types force. *)
Theorem SerializeMesh_DeserializeMesh_roundtrip (G : Indeterminate) (ops : list BuildOp) :
  wf_buffers (build ops FProcMeshSection_new) = true ->
  decode G FProcMeshSection_new (encode (build ops FProcMeshSection_new))
  = (build ops FProcMeshSection_new, mkReader [] false).
Proof.
  intros Hwf. rewrite decode_encode by assumption. now rewrite replay_build.
Qed.

Lemma SerializeMesh_DeserializeMesh_roundtrip_witness :
  wf_buffers (build triangle_ops FProcMeshSection_new) = true
  /\ decode stack FProcMeshSection_new (encode (build triangle_ops FProcMeshSection_new))
     = (build triangle_ops FProcMeshSection_new, mkReader [] false).
Proof.
  split; [reflexivity|].
  apply (SerializeMesh_DeserializeMesh_roundtrip stack triangle_ops). reflexivity.
Defined.

(** ** The stored box: replayed by one decoder, trusted by the other *)

(** C2. On the stream of any section [M], whatever box [M] carries:
    [DeserializeMesh] reads past the six stored box values (it ends at the end
    of the stream) and the box of the section it fills is the one that
    [AddVertex], called once per decoded vertex, builds from the empty box -
    the tight bound of the vertices when there are any and their positions are
    ordered floats; [DeserializeMeshFast] instead installs the stored corners
    as they are.  So when the stored corners are not the bound of the vertices
    the safe decoder still yields that bound and the fast one the stored
    corners.  (That the safe decoder ignores the 24 box bytes of any stream at
    all is [DeserializeMesh_ignores_stored_box].) *)
Theorem stored_box_replayed_or_installed
    (G : Indeterminate) (M0 M : FProcMeshSection) :
  wf_section M = true ->
  snd (decode G FProcMeshSection_new (encode M)) = mkReader [] false
  /\ SectionLocalBox (fst (decode G FProcMeshSection_new (encode M)))
     = SectionLocalBox (AddVertices FProcMeshSection_new (ProcVertexBuffer M))
  /\ ((0 < length (ProcVertexBuffer M))%nat ->
      forallb ordered_point (map VertexPos (ProcVertexBuffer M)) = true ->
      tight_bound (SectionLocalBox (fst (decode G FProcMeshSection_new (encode M))))
                  (map VertexPos (ProcVertexBuffer M)))
  /\ exists Mfast rest,
       DeserializeMeshFast M0 (encode M) = Some (Mfast, rest)
       /\ SectionLocalBox Mfast
          = FBox_MinMax (Min (SectionLocalBox M)) (Max (SectionLocalBox M)).
Proof.
  intros Hwf. unfold wf_section in Hwf. apply andb_true_iff in Hwf.
  destruct Hwf as [Hbuf Hbox].
  rewrite decode_encode by assumption. cbn [fst snd].
  split; [reflexivity|]. split; [|split].
  - rewrite AddIndices_components. reflexivity.
  - intros Hne Hord.
    rewrite AddIndices_components, AddVertices_components.
    cbn [SectionLocalBox FProcMeshSection_new].
    apply FBox_AddPoints_tight; [|exact Hord].
    destruct (ProcVertexBuffer M); [cbn in Hne; lia | discriminate].
  - eexists _, _. split.
    + rewrite <- (app_nil_r (encode M)).
      apply DeserializeMeshFast_encode; assumption.
    + reflexivity.
Qed.

Lemma stored_box_replayed_or_installed_witness :
  wf_section mislabelled = true
  /\ snd (decode stack FProcMeshSection_new (encode mislabelled)) = mkReader [] false
  /\ SectionLocalBox (fst (decode stack FProcMeshSection_new (encode mislabelled)))
     = SectionLocalBox (AddVertices FProcMeshSection_new (ProcVertexBuffer mislabelled))
  /\ ((0 < length (ProcVertexBuffer mislabelled))%nat ->
      forallb ordered_point (map VertexPos (ProcVertexBuffer mislabelled)) = true ->
      tight_bound
        (SectionLocalBox (fst (decode stack FProcMeshSection_new (encode mislabelled))))
        (map VertexPos (ProcVertexBuffer mislabelled)))
  /\ exists Mfast rest,
       DeserializeMeshFast two_vertices (encode mislabelled) = Some (Mfast, rest)
       /\ SectionLocalBox Mfast
          = FBox_MinMax (Min (SectionLocalBox mislabelled)) (Max (SectionLocalBox mislabelled)).
Proof.
  split; [reflexivity|].
  apply (stored_box_replayed_or_installed stack two_vertices mislabelled). reflexivity.
Defined.

(** The deliberately wrong box: the safe decoder returns the bound of the
    three vertices, (-1,0,-2) to (1,5,0); the fast one the stored (5,5,5). *)
Example mislabelled_boxes :
  SectionLocalBox (fst (decode stack FProcMeshSection_new (encode mislabelled)))
  = mkFBox (mkFVector f_neg_one f_zero f_neg_two) (mkFVector f_one f_five f_zero) true
  /\ option_map (fun r => SectionLocalBox (fst r))
       (DeserializeMeshFast FProcMeshSection_new (encode mislabelled))
     = Some (mkFBox wrong_corner wrong_corner true).
Proof. split; reflexivity. Qed.

(** ** Truncated streams *)

(** C3, as claimed, fails: on two encoded vertices cut before the second
    material index the call returns normally, the section holds both vertices
    (the second with whatever its material index slot held) and only the
    archive's flag records the shortfall. *)
Lemma truncated_decode_populates_section :
  decode stack FProcMeshSection_new truncated
  = (mkSection [va; at_pos f_neg_one f_five f_zero (-842150451)] []
       (mkFBox (mkFVector f_neg_one f_zero f_zero) (mkFVector f_one f_five f_zero) true),
     mkReader [] true)
  /\ ~ decode_rejects stack FProcMeshSection_new truncated.
Proof.
  split; [reflexivity|]. intros [_ H]. discriminate H.
Qed.

(** C3, amended.  For every strict prefix of a stream written by
    [SerializeMesh], [DeserializeMesh] returns with the archive's error flag
    raised - its only trace of the shortfall - and with the section it was
    given extended by what its loops appended: nothing is rolled back, and
    every vertex record that lies wholly inside the prefix has been added as
    it was written. *)
Theorem truncated_stream_raises_flag
    (G : Indeterminate) (M0 M : FProcMeshSection) (n : nat) :
  wf_buffers M = true ->
  (n < length (encode M))%nat ->
  decode_flags_error G M0 (firstn n (encode M)) = true
  /\ extends_section M0 (fst (decode G M0 (firstn n (encode M))))
  /\ forall k, (k <= length (ProcVertexBuffer M))%nat -> (28 + 28 * k <= n)%nat ->
       extends_section (AddVertices M0 (firstn k (ProcVertexBuffer M)))
                       (fst (decode G M0 (firstn n (encode M)))).
Proof.
  intros Hwf Hn. split; [|split].
  - now apply truncated_flags_error.
  - apply DeserializeMesh_extends.
  - intros k Hk Hkn. now apply truncated_keeps_whole_records.
Qed.

Lemma truncated_stream_raises_flag_witness :
  wf_buffers two_vertices = true
  /\ (80 < length (encode two_vertices))%nat
  /\ decode_flags_error stack FProcMeshSection_new (firstn 80 (encode two_vertices)) = true
  /\ extends_section FProcMeshSection_new
       (fst (decode stack FProcMeshSection_new (firstn 80 (encode two_vertices))))
  /\ forall k, (k <= length (ProcVertexBuffer two_vertices))%nat -> (28 + 28 * k <= 80)%nat ->
       extends_section
         (AddVertices FProcMeshSection_new (firstn k (ProcVertexBuffer two_vertices)))
         (fst (decode stack FProcMeshSection_new (firstn 80 (encode two_vertices)))).
Proof.
  split; [reflexivity|]. split; [vm_compute; lia|].
  apply (truncated_stream_raises_flag stack FProcMeshSection_new two_vertices 80).
  - reflexivity.
  - vm_compute; lia.
Defined.

(** ** Negative counts *)

(** C4, as claimed, fails: a vertex count of -1 raises nothing; the call
    goes on to the index count and appends the three indices. *)
Lemma negative_count_is_accepted :
  decode stack FProcMeshSection_new negative_count
  = (mkSection [] [0; 1; 2] FBox_Init, mkReader [] false)
  /\ decode_flags_error stack FProcMeshSection_new negative_count = false.
Proof. split; reflexivity. Qed.

(** C4, amended.  A negative count is not an error for [DeserializeMesh]:
    the loop it bounds does not run, so a stream of the wire shape whose
    vertex count or index count is negative (and which then carries no record
    for that count) is decoded to the end without the flag being raised, and
    the section receives exactly the records of the other group. *)
Theorem negative_count_runs_no_iteration
    (G : Indeterminate) (M0 : FProcMeshSection) (VertexNum IndexNum : Z) (B : FBox)
    (Vertices : list FProcMeshVertex) (Indices : list Z) (rest : list byte) :
  is_int32 VertexNum = true ->
  is_int32 IndexNum = true ->
  length Vertices = Z.to_nat VertexNum ->
  length Indices = Z.to_nat IndexNum ->
  forallb wf_vertex Vertices = true ->
  forallb is_int32 Indices = true ->
  VertexNum < 0 \/ IndexNum < 0 ->
  DeserializeMesh G M0
    (mkReader (wire_bytes (stream_fields VertexNum B Vertices IndexNum Indices) ++ rest) false)
  = (AddIndices (AddVertices M0 Vertices) Indices, mkReader rest false)
  /\ (VertexNum < 0 -> Vertices = [])
  /\ (IndexNum < 0 -> Indices = []).
Proof.
  intros Hnv Hni Hlv Hli Hv Hi _. split; [|split].
  - now apply DeserializeMesh_stream.
  - intros Hneg. apply length_zero_iff_nil. rewrite Hlv. lia.
  - intros Hneg. apply length_zero_iff_nil. rewrite Hli. lia.
Qed.

Lemma negative_count_runs_no_iteration_witness :
  is_int32 (-1) = true /\ is_int32 3 = true
  /\ length (@nil FProcMeshVertex) = Z.to_nat (-1)
  /\ length [0; 1; 2] = Z.to_nat 3
  /\ forallb wf_vertex [] = true
  /\ forallb is_int32 [0; 1; 2] = true
  /\ (-1 < 0 \/ 3 < 0)
  /\ DeserializeMesh stack two_vertices
       (mkReader (wire_bytes (stream_fields (-1) FBox_Init [] 3 [0; 1; 2]) ++ []) false)
     = (AddIndices (AddVertices two_vertices []) [0; 1; 2], mkReader [] false)
  /\ (-1 < 0 -> @nil FProcMeshVertex = [])
  /\ (3 < 0 -> [0; 1; 2] = []).
Proof.
  do 6 (split; [reflexivity|]). split; [left; lia|].
  apply (negative_count_runs_no_iteration stack two_vertices (-1) 3 FBox_Init [] [0; 1; 2] []);
    try reflexivity.
  left; lia.
Defined.

(** ** Index values *)

(** C5, as claimed, fails: a section with one vertex and the indices 0, 7
    and -1 decodes without error, and 7 and -1 sit in the index buffer. *)
Lemma stray_indices_are_accepted :
  has_stray_index stray_indices = true
  /\ decode_flags_error stack FProcMeshSection_new (encode stray_indices) = false
  /\ ProcIndexBuffer (fst (decode stack FProcMeshSection_new (encode stray_indices)))
     = [0; 7; -1].
Proof. repeat split; reflexivity. Qed.

(** C5, amended.  [DeserializeMesh] does not look at index values: when the
    stream of a section holds an index outside [0, vertexCount), decoding
    still ends without the flag raised and every index of the stream, stray
    ones included, is in the decoded index buffer, in order. *)
Theorem stray_index_is_appended (G : Indeterminate) (M : FProcMeshSection) :
  wf_buffers M = true ->
  has_stray_index M = true ->
  decode_flags_error G FProcMeshSection_new (encode M) = false
  /\ ProcIndexBuffer (fst (decode G FProcMeshSection_new (encode M))) = ProcIndexBuffer M
  /\ has_stray_index (fst (decode G FProcMeshSection_new (encode M))) = true.
Proof.
  intros Hwf Hstray. unfold decode_flags_error.
  rewrite decode_encode by assumption. cbn [fst snd ArIsError].
  rewrite AddIndices_components, AddVertices_components.
  cbn [ProcIndexBuffer ProcVertexBuffer FProcMeshSection_new app].
  repeat split. exact Hstray.
Qed.

Lemma stray_index_is_appended_witness :
  wf_buffers stray_indices = true
  /\ has_stray_index stray_indices = true
  /\ decode_flags_error stack FProcMeshSection_new (encode stray_indices) = false
  /\ ProcIndexBuffer (fst (decode stack FProcMeshSection_new (encode stray_indices)))
     = ProcIndexBuffer stray_indices
  /\ has_stray_index (fst (decode stack FProcMeshSection_new (encode stray_indices))) = true.
Proof.
  do 2 (split; [reflexivity|]).
  apply (stray_index_is_appended stack stray_indices); reflexivity.
Defined.

(** ** The bounding box *)

(** C6, as claimed for any sequence, fails: after the positions x = 1,
    x = NaN, x = 0 the box spans 0 to 0 in x, so the inserted 1 lies outside
    it and the box is not the bound of the inserted positions. *)
Lemma nan_position_breaks_tight_bound :
  SectionLocalBox (build nan_ops FProcMeshSection_new)
  = mkFBox FVector_Zero FVector_Zero true
  /\ In f_one (map VecX (map VertexPos (inserted nan_ops)))
  /\ f32_le f_one (VecX (Max (SectionLocalBox (build nan_ops FProcMeshSection_new)))) = false
  /\ ~ tight_bound (SectionLocalBox (build nan_ops FProcMeshSection_new))
                   (map VertexPos (inserted nan_ops)).
Proof.
  split; [reflexivity|]. split; [now left|]. split; [reflexivity|].
  intros (_ & _ & _ & _ & [_ Hmax] & _).
  specialize (Hmax f_one (or_introl eq_refl)). discriminate Hmax.
Qed.

(** C6, amended.  After any build sequence that inserts at least one vertex,
    started from a newly constructed section or from one just [Reset], and
    whose positions are ordered floats (no coordinate is a NaN), the box is
    valid and each coordinate of its [Min] (of its [Max]) is a least (a
    greatest) one among the inserted positions. *)
Theorem AddVertex_box_is_tight (M : FProcMeshSection) (ops : list BuildOp) :
  (0 < length (inserted ops))%nat ->
  forallb ordered_point (map VertexPos (inserted ops)) = true ->
  tight_bound (SectionLocalBox (build ops FProcMeshSection_new))
              (map VertexPos (inserted ops))
  /\ tight_bound (SectionLocalBox (build ops (Reset M)))
                 (map VertexPos (inserted ops)).
Proof.
  intros Hne Hord.
  assert (Hps : map VertexPos (inserted ops) <> []).
  { destruct (inserted ops); [cbn in Hne; lia | discriminate]. }
  change (Reset M) with FProcMeshSection_new.
  rewrite build_components. cbn [SectionLocalBox FProcMeshSection_new].
  split; apply FBox_AddPoints_tight; assumption.
Qed.

Lemma AddVertex_box_is_tight_witness :
  (0 < length (inserted triangle_ops))%nat
  /\ forallb ordered_point (map VertexPos (inserted triangle_ops)) = true
  /\ tight_bound (SectionLocalBox (build triangle_ops FProcMeshSection_new))
                 (map VertexPos (inserted triangle_ops))
  /\ tight_bound (SectionLocalBox (build triangle_ops (Reset two_vertices)))
                 (map VertexPos (inserted triangle_ops)).
Proof.
  split; [simpl; lia|]. split; [reflexivity|].
  apply (AddVertex_box_is_tight two_vertices triangle_ops); [simpl; lia | reflexivity].
Defined.

(** The sample patterns stand for 1, -1, 5 and -2 (values scaled by 2^149). *)
Example sample_values :
  map f32_scaled [f_zero; f_one; f_neg_one; f_five; f_neg_two]
  = map (fun q => q * 2 ^ 149) [0; 1; -1; 5; -2].
Proof. vm_compute. reflexivity. Qed.

(** The sample patterns in float order: -2 <= -1 <= -0 = +0 <= 1 <= 5, and a
    NaN compares with nothing, itself included. *)
Example float_order_samples :
  map (fun p => f32_le (fst p) (snd p))
      [ (f_neg_two, f_neg_one); (f_neg_one, f_zero); (f_zero, f_one); (f_one, f_five);
        (2147483648, f_zero); (f_zero, 2147483648);
        (f_five, f_one); (f_nan, f_nan); (f_nan, f_one); (f_one, f_nan) ]
  = [ true; true; true; true; true; true; false; false; false; false ].
Proof. reflexivity. Qed.

(** The positions (1,0,0), (-1,5,0), (0,0,-2) give min (-1,0,-2) and
    max (1,5,0). *)
Example triangle_box :
  map VertexPos (inserted triangle_ops)
  = [ mkFVector f_one f_zero f_zero; mkFVector f_neg_one f_five f_zero;
      mkFVector f_zero f_zero f_neg_two ]
  /\ SectionLocalBox triangle
     = mkFBox (mkFVector f_neg_one f_zero f_neg_two) (mkFVector f_one f_five f_zero) true.
Proof. split; reflexivity. Qed.

(** Outside the ordered floats the comparisons of [FMath::Min] and
    [FMath::Max] all fail: after x = 1, NaN, 0 the box spans 0 to 0 in x. *)
Remark nan_position_resets_bound :
  SectionLocalBox
    (AddVertices FProcMeshSection_new
       [at_pos f_one f_zero f_zero 0; at_pos f_nan f_zero f_zero 0;
        at_pos f_zero f_zero f_zero 0])
  = mkFBox FVector_Zero FVector_Zero true.
Proof. reflexivity. Qed.

(** ** The two decoders agree on the buffers *)

(** C7. On the stream of any section both decoders succeed and fill equal
    vertex buffers and equal index buffers (those of the encoded section);
    nothing is said of the boxes. *)
Theorem fast_and_safe_buffers_agree (G : Indeterminate) (M0 M : FProcMeshSection) :
  wf_section M = true ->
  exists Mfast rest,
    DeserializeMeshFast M0 (encode M) = Some (Mfast, rest)
    /\ ProcVertexBuffer (fst (decode G FProcMeshSection_new (encode M)))
       = ProcVertexBuffer Mfast
    /\ ProcIndexBuffer (fst (decode G FProcMeshSection_new (encode M)))
       = ProcIndexBuffer Mfast
    /\ ProcVertexBuffer Mfast = ProcVertexBuffer M
    /\ ProcIndexBuffer Mfast = ProcIndexBuffer M.
Proof.
  intros Hwf. unfold wf_section in Hwf. apply andb_true_iff in Hwf.
  destruct Hwf as [Hbuf Hbox].
  eexists _, _. split.
  - rewrite <- (app_nil_r (encode M)). apply DeserializeMeshFast_encode; assumption.
  - rewrite decode_encode by assumption. cbn [fst].
    rewrite AddIndices_components, AddVertices_components.
    cbn [ProcIndexBuffer ProcVertexBuffer FProcMeshSection_new app].
    repeat split.
Qed.

Lemma fast_and_safe_buffers_agree_witness :
  wf_section mislabelled = true
  /\ exists Mfast rest,
       DeserializeMeshFast two_vertices (encode mislabelled) = Some (Mfast, rest)
       /\ ProcVertexBuffer (fst (decode stack FProcMeshSection_new (encode mislabelled)))
          = ProcVertexBuffer Mfast
       /\ ProcIndexBuffer (fst (decode stack FProcMeshSection_new (encode mislabelled)))
          = ProcIndexBuffer Mfast
       /\ ProcVertexBuffer Mfast = ProcVertexBuffer mislabelled
       /\ ProcIndexBuffer Mfast = ProcIndexBuffer mislabelled.
Proof.
  split; [reflexivity|].
  apply (fast_and_safe_buffers_agree stack two_vertices mislabelled). reflexivity.
Defined.

(** ** The order of the fields *)

(** C8. [SerializeMesh] appends to the archive exactly the fields of the
    encode contract in its order - vertex count; min.x, min.y, min.z, max.x,
    max.y, max.z; the seven scalars of each vertex in buffer order; index
    count; each index in buffer order - four bytes each, so that the number
    of bytes written is 4 * (8 + 7 * vertices + indices). *)
Theorem SerializeMesh_field_order (M : FProcMeshSection) (BinaryData : FBufferArchive) :
  SerializeMesh M BinaryData = BinaryData ++ wire_bytes (wire_fields M)
  /\ length (SerializeMesh M BinaryData)
     = (length BinaryData
        + 4 * (8 + 7 * length (ProcVertexBuffer M) + length (ProcIndexBuffer M)))%nat.
Proof.
  split; [apply SerializeMesh_fields|].
  rewrite SerializeMesh_fields, length_app, length_wire_bytes, length_wire_fields.
  reflexivity.
Qed.

(** ** Reset *)

(** C9. [Reset] empties both buffers and puts the box back in its empty
    state; the section it leaves is the newly constructed one, so any further
    build sequence, and the encoding of its result, go as from a new section. *)
Theorem Reset_is_new (M : FProcMeshSection) (ops : list BuildOp) (BinaryData : FBufferArchive) :
  ProcVertexBuffer (Reset M) = []
  /\ ProcIndexBuffer (Reset M) = []
  /\ SectionLocalBox (Reset M) = FBox_Init
  /\ IsValid (SectionLocalBox (Reset M)) = false
  /\ Reset M = FProcMeshSection_new
  /\ build ops (Reset M) = build ops FProcMeshSection_new
  /\ SerializeMesh (build ops (Reset M)) BinaryData
     = SerializeMesh (build ops FProcMeshSection_new) BinaryData.
Proof. repeat split. Qed.

(** ** Decoding into a section that is not empty *)

(** C10. [DeserializeMesh] does not clear its section: decoding the stream
    of [M] into any section [M0] leaves the vertices of [M0] followed by
    those of [M], the indices of [M0] followed by those of [M], and the box
    of [M0] widened by [AddVertex] with each decoded position. *)
Theorem DeserializeMesh_appends (G : Indeterminate) (M0 M : FProcMeshSection) :
  wf_buffers M = true ->
  decode G M0 (encode M)
  = (mkSection (ProcVertexBuffer M0 ++ ProcVertexBuffer M)
               (ProcIndexBuffer M0 ++ ProcIndexBuffer M)
               (SectionLocalBox (AddVertices M0 (ProcVertexBuffer M))),
     mkReader [] false).
Proof.
  intros Hwf. rewrite decode_encode by assumption.
  rewrite AddIndices_components, AddVertices_components. reflexivity.
Qed.

Lemma DeserializeMesh_appends_witness :
  wf_buffers triangle = true
  /\ decode stack two_vertices (encode triangle)
     = (mkSection (ProcVertexBuffer two_vertices ++ ProcVertexBuffer triangle)
                  (ProcIndexBuffer two_vertices ++ ProcIndexBuffer triangle)
                  (SectionLocalBox (AddVertices two_vertices (ProcVertexBuffer triangle))),
        mkReader [] false).
Proof.
  split; [reflexivity|].
  apply (DeserializeMesh_appends stack two_vertices triangle). reflexivity.
Defined.

(** Decoding the triangle into the two-vertex section: five vertices, six
    indices. *)
Example reused_section_concatenates :
  let M := fst (decode stack two_vertices (encode triangle)) in
  ProcVertexBuffer M = [va; vb; va; vb; vc]
  /\ ProcIndexBuffer M = [0; 1; 0; 0; 1; 2].
Proof. split; reflexivity. Qed.

(* ================================================================== *)
(** * Further properties *)

(** ** What the bulk reader returns, written back *)

Lemma firstn_add {A} (a b : nat) (l : list A) :
  firstn (a + b) l = firstn a l ++ firstn b (skipn a l).
Proof.
  revert l. induction a as [|a IH]; intros l; [reflexivity|].
  destruct l as [|x l]; cbn [Nat.add firstn skipn app].
  - now rewrite firstn_nil.
  - now rewrite IH.
Qed.

Lemma raw_read_inv n D mem D' :
  raw_read n D = Some (mem, D') -> D = mem ++ D' /\ length mem = n.
Proof.
  unfold raw_read. destruct (length D <? n)%nat eqn:E; [discriminate|].
  apply Nat.ltb_ge in E. intros H. injection H as <- <-. split.
  - symmetry. apply firstn_skipn.
  - rewrite length_firstn. lia.
Qed.

Lemma int32_bits_of_bits u :
  0 <= u < 4294967296 -> int32_bits (int32_of_bits u) = u.
Proof.
  intros H. unfold int32_bits, int32_of_bits.
  destruct (u <? 2147483648); Z.to_euclidean_division_equations; lia.
Qed.

Lemma peek32_range mem off : 0 <= peek32 mem off < 4294967296.
Proof. apply le_word4_range. Qed.

Lemma le_bytes4_peek32 mem :
  (4 <= length mem)%nat -> le_bytes4 (peek32 mem 0) = firstn 4 mem.
Proof.
  intros H. destruct mem as [|b0 [|b1 [|b2 [|b3 mem]]]]; cbn [length] in H; try lia.
  unfold peek32. cbn [nth Nat.add firstn]. apply le_bytes4_word4.
Qed.

Lemma float_field_peek32 mem :
  (4 <= length mem)%nat -> field_bytes (FFloat (peek32 mem 0)) = firstn 4 mem.
Proof. apply le_bytes4_peek32. Qed.

Lemma int32_field_peek32 mem :
  (4 <= length mem)%nat ->
  field_bytes (FInt32 (int32_of_bits (peek32 mem 0))) = firstn 4 mem.
Proof.
  intros H. cbn [field_bytes]. rewrite int32_bits_of_bits by apply peek32_range.
  now apply le_bytes4_peek32.
Qed.

Lemma float_array_bytes n : forall mem,
  (4 * n <= length mem)%nat ->
  wire_bytes (map FFloat (float_array n mem)) = firstn (4 * n) mem.
Proof.
  induction n as [|n IH]; intros mem H; [reflexivity|].
  cbn [float_array map]. unfold wire_bytes. cbn [flat_map].
  fold (wire_bytes (map FFloat (float_array n (skipn 4 mem)))).
  rewrite float_field_peek32 by lia.
  rewrite IH by (rewrite length_skipn; lia).
  replace (4 * S n)%nat with (4 + 4 * n)%nat by lia. now rewrite firstn_add.
Qed.

Lemma int32_array_bytes n : forall mem,
  (4 * n <= length mem)%nat ->
  wire_bytes (map FInt32 (int32_array n mem)) = firstn (4 * n) mem.
Proof.
  induction n as [|n IH]; intros mem H; [reflexivity|].
  cbn [int32_array map]. unfold wire_bytes. cbn [flat_map].
  fold (wire_bytes (map FInt32 (int32_array n (skipn 4 mem)))).
  rewrite int32_field_peek32 by lia.
  rewrite IH by (rewrite length_skipn; lia).
  replace (4 * S n)%nat with (4 + 4 * n)%nat by lia. now rewrite firstn_add.
Qed.

(** A record read out of 28 bytes of memory writes back as those bytes. *)
Lemma vertex_of_memory_bytes mem :
  (28 <= length mem)%nat ->
  wire_bytes (vertex_fields (vertex_of_memory mem)) = firstn 28 mem.
Proof.
  intros H.
  do 28 (destruct mem as [|? mem]; [cbn [length] in H; lia|]).
  unfold vertex_of_memory, peek32, wire_bytes, vertex_fields.
  cbn [flat_map field_bytes nth Nat.add firstn PositionX PositionY PositionZ
       NormalX NormalY NormalZ MatIdx].
  rewrite int32_bits_of_bits by apply le_word4_range.
  rewrite !le_bytes4_word4. reflexivity.
Qed.

Lemma vertex_array_bytes n : forall mem,
  (28 * n <= length mem)%nat ->
  wire_bytes (flat_map vertex_fields (vertex_array n mem)) = firstn (28 * n) mem.
Proof.
  induction n as [|n IH]; intros mem H; [reflexivity|].
  cbn [vertex_array flat_map]. rewrite wire_bytes_app.
  rewrite vertex_of_memory_bytes by lia.
  unfold sizeof_FProcMeshVertex.
  rewrite IH by (rewrite length_skipn; lia).
  replace (28 * S n)%nat with (28 + 28 * n)%nat by lia. now rewrite firstn_add.
Qed.

Lemma length_float_array n : forall mem, length (float_array n mem) = n.
Proof. induction n as [|n IH]; intros mem; cbn [float_array length]; auto. Qed.

Lemma length_int32_array n : forall mem, length (int32_array n mem) = n.
Proof. induction n as [|n IH]; intros mem; cbn [int32_array length]; auto. Qed.

Lemma length_vertex_array n : forall mem, length (vertex_array n mem) = n.
Proof. induction n as [|n IH]; intros mem; cbn [vertex_array length]; auto. Qed.

(** *** Everything the bulk reader returns is 32-bit data *)

Lemma is_float32_peek32 mem off : is_float32 (peek32 mem off) = true.
Proof.
  pose proof (peek32_range mem off) as H. unfold is_float32.
  apply andb_true_iff. split; [apply Z.leb_le | apply Z.ltb_lt]; lia.
Qed.

Lemma is_int32_peek32 mem off : is_int32 (int32_of_bits (peek32 mem off)) = true.
Proof. apply int32_of_bits_range, peek32_range. Qed.

Lemma wf_vertex_of_memory mem : wf_vertex (vertex_of_memory mem) = true.
Proof.
  unfold wf_vertex, vertex_of_memory.
  cbn [PositionX PositionY PositionZ NormalX NormalY NormalZ MatIdx].
  now rewrite !is_float32_peek32, is_int32_peek32.
Qed.

Lemma wf_vertex_array n : forall mem, forallb wf_vertex (vertex_array n mem) = true.
Proof.
  induction n as [|n IH]; intros mem; [reflexivity|].
  cbn [vertex_array forallb]. now rewrite wf_vertex_of_memory, IH.
Qed.

Lemma wf_int32_array n : forall mem, forallb is_int32 (int32_array n mem) = true.
Proof.
  induction n as [|n IH]; intros mem; [reflexivity|].
  cbn [int32_array forallb]. now rewrite is_int32_peek32, IH.
Qed.

Lemma wf_float_array n : forall mem, forallb is_float32 (float_array n mem) = true.
Proof.
  induction n as [|n IH]; intros mem; [reflexivity|].
  cbn [float_array forallb]. now rewrite is_float32_peek32, IH.
Qed.

Lemma stored_corners_bytes m2 m3 :
  length m2 = 12%nat -> length m3 = 12%nat ->
  wire_bytes (box_fields (FBox_MinMax (FVector_of_array (float_array 3 m2))
                                      (FVector_of_array (float_array 3 m3))))
  = m2 ++ m3.
Proof.
  intros H2 H3.
  change (box_fields _)
    with (map FFloat (float_array 3 m2) ++ map FFloat (float_array 3 m3)).
  rewrite wire_bytes_app, !float_array_bytes by lia.
  now rewrite (firstn_all2 m2), (firstn_all2 m3) by lia.
Qed.

Lemma wf_stored_corners m2 m3 :
  wf_box (FBox_MinMax (FVector_of_array (float_array 3 m2))
                      (FVector_of_array (float_array 3 m3))) = true.
Proof.
  unfold wf_box, wf_vector, FBox_MinMax, FVector_of_array.
  cbn [Min Max VecX VecY VecZ float_array nth].
  now rewrite !is_float32_peek32.
Qed.

(** Whatever buffer the bulk decoder accepts, the section it returns is
    32-bit data and encodes to exactly the bytes that were read. *)
Lemma DeserializeMeshFast_inv M0 bs Mf rest :
  DeserializeMeshFast M0 bs = Some (Mf, rest) ->
  bs = encode Mf ++ rest /\ wf_section Mf = true.
Proof.
  intros H. unfold DeserializeMeshFast in H.
  unfold readObj_int32 at 1 in H.
  destruct (raw_read 4 bs) as [[m1 D1]|] eqn:R1; cbn [obind] in H; [|discriminate].
  unfold read_floats at 1 in H.
  destruct (raw_read (4 * 3) D1) as [[m2 D2]|] eqn:R2; cbn [obind] in H; [|discriminate].
  unfold read_floats at 1 in H.
  destruct (raw_read (4 * 3) D2) as [[m3 D3]|] eqn:R3; cbn [obind] in H; [|discriminate].
  destruct (int32_of_bits (peek32 m1 0) <? 0) eqn:N1; [discriminate|].
  unfold read_vertices in H.
  destruct (raw_read _ D3) as [[m4 D4]|] eqn:R4; cbn [obind] in H; [|discriminate].
  unfold readObj_int32 in H.
  destruct (raw_read 4 D4) as [[m5 D5]|] eqn:R5; cbn [obind] in H; [|discriminate].
  destruct (int32_of_bits (peek32 m5 0) <? 0) eqn:N2; [discriminate|].
  unfold read_int32s in H.
  destruct (raw_read _ D5) as [[m6 D6]|] eqn:R6; cbn [obind] in H; [|discriminate].
  match type of H with
  | Some (?S, ?D) = _ =>
      assert (HM : S = Mf) by congruence; assert (HR : D = rest) by congruence
  end.
  clear H. subst Mf rest.
  apply raw_read_inv in R1, R2, R3, R4, R5, R6.
  destruct R1 as [-> L1], R2 as [-> L2], R3 as [-> L3],
           R4 as [-> L4], R5 as [-> L5], R6 as [-> L6].
  apply Z.ltb_ge in N1, N2.
  set (nv := int32_of_bits (peek32 m1 0)) in *.
  set (ni := int32_of_bits (peek32 m5 0)) in *.
  assert (Bv : nv < 2147483648).
  { pose proof (is_int32_peek32 m1 0) as B. fold nv in B. unfold is_int32 in B.
    apply andb_true_iff in B. destruct B as [_ B]. now apply Z.ltb_lt in B. }
  assert (Bi : ni < 2147483648).
  { pose proof (is_int32_peek32 m5 0) as B. fold ni in B. unfold is_int32 in B.
    apply andb_true_iff in B. destruct B as [_ B]. now apply Z.ltb_lt in B. }
  unfold sizeof_FProcMeshVertex in L4.
  split.
  - rewrite encode_fields. unfold wire_fields.
    cbv beta iota delta [ProcVertexBuffer ProcIndexBuffer SectionLocalBox].
    rewrite !wire_bytes_app, stored_corners_bytes by assumption.
    unfold TArray_Num. rewrite length_vertex_array, length_int32_array, !Z2Nat.id by lia.
    unfold wire_bytes at 1 3. cbn [flat_map]. rewrite !app_nil_r.
    subst nv ni. rewrite !int32_field_peek32 by lia.
    rewrite vertex_array_bytes, int32_array_bytes by lia.
    rewrite (firstn_all2 m1), (firstn_all2 m5), (firstn_all2 m4), (firstn_all2 m6) by lia.
    rewrite <- !app_assoc. reflexivity.
  - unfold wf_section, wf_buffers.
    cbv beta iota delta [ProcVertexBuffer ProcIndexBuffer SectionLocalBox].
    rewrite wf_vertex_array, wf_int32_array, wf_stored_corners.
    unfold TArray_Num. rewrite length_vertex_array, length_int32_array, !Z2Nat.id by lia.
    cbn [andb]. apply andb_true_iff. split; [|reflexivity].
    apply andb_true_iff; split; apply Z.ltb_lt; assumption.
Qed.

(** ** What the safe decoder returns without error was in the stream *)

Section SafeInverse.

Variable G : Indeterminate.

Lemma Serialize4_decodes :
  decodes Serialize4
    (fun o bs => exists u, o = Some u /\ bs = le_bytes4 u /\ 0 <= u < 4294967296).
Proof.
  intros [r e] H. unfold Serialize4 in *. cbn [ArIsError Remaining] in *.
  destruct e; [discriminate H|]. split; [reflexivity|].
  destruct r as [|b0 [|b1 [|b2 [|b3 r]]]]; try discriminate H.
  cbn [fst snd Remaining]. exists [b0; b1; b2; b3]. split; [reflexivity|].
  exists (le_word4 b0 b1 b2 b3). split; [reflexivity|]. split.
  - symmetry. apply le_bytes4_word4.
  - apply le_word4_range.
Qed.

Lemma load_float_decodes Dst :
  decodes (load_float Dst)
    (fun x bs => bs = field_bytes (FFloat x) /\ is_float32 x = true).
Proof.
  intros Ar H. unfold load_float in *.
  destruct (Serialize4_decodes Ar) as [H0 (bs & Hr & u & Ho & Hb & Hu)].
  - destruct (Serialize4 Ar) as [[v|] Ar']; exact H.
  - split; [exact H0|]. exists bs.
    destruct (Serialize4 Ar) as [[v|] Ar']; [|discriminate Ho].
    injection Ho as ->. cbn [fst snd] in *. split; [exact Hr|]. split; [exact Hb|].
    unfold is_float32. apply andb_true_iff.
    split; [apply Z.leb_le | apply Z.ltb_lt]; lia.
Qed.

Lemma load_int32_decodes Dst :
  decodes (load_int32 Dst)
    (fun z bs => bs = field_bytes (FInt32 z) /\ is_int32 z = true).
Proof.
  intros Ar H. unfold load_int32 in *.
  destruct (Serialize4_decodes Ar) as [H0 (bs & Hr & u & Ho & Hb & Hu)].
  - destruct (Serialize4 Ar) as [[v|] Ar']; exact H.
  - split; [exact H0|]. exists bs.
    destruct (Serialize4 Ar) as [[v|] Ar']; [|discriminate Ho].
    injection Ho as ->. cbn [fst snd] in *. split; [exact Hr|]. split.
    + cbn [field_bytes]. now rewrite int32_bits_of_bits.
    + now apply int32_of_bits_range.
Qed.

Lemma rret_decodes {A} (a : A) : decodes (rret a) (fun a' bs => a' = a /\ bs = []).
Proof.
  intros [r e] H. cbn in H. subst e. split; [reflexivity|].
  exists []. now repeat split.
Qed.

Lemma rbind_decodes {A B} (f : Reading A) (g : A -> Reading B)
    (R : A -> list byte -> Prop) (S : A -> B -> list byte -> Prop) :
  decodes f R -> (forall a, decodes (g a) (S a)) ->
  decodes (rbind f g)
    (fun b bs => exists a b1 b2, bs = b1 ++ b2 /\ R a b1 /\ S a b b2).
Proof.
  intros Hf Hg Ar H. unfold rbind in *.
  destruct (f Ar) as [a Ar1] eqn:Ef.
  destruct (Hg a Ar1 H) as [H1 (b2 & Hr2 & HS)].
  destruct (Hf Ar) as [H0 (b1 & Hr1 & HR)]; [now rewrite Ef|].
  rewrite Ef in Hr1, HR. cbn [fst snd] in Hr1, HR.
  split; [exact H0|]. exists (b1 ++ b2). split.
  - rewrite Hr1, Hr2. now rewrite app_assoc.
  - exists a, b1, b2. now repeat split.
Qed.

Lemma decodes_weaken {A} (f : Reading A) (R R' : A -> list byte -> Prop) :
  decodes f R -> (forall a bs, R a bs -> R' a bs) -> decodes f R'.
Proof.
  intros Hf Himp Ar H. destruct (Hf Ar H) as [H0 (bs & Hr & HR)].
  split; [exact H0|]. exists bs. split; [exact Hr|]. now apply Himp.
Qed.

Lemma load_vertex_decodes V :
  decodes (load_vertex V)
    (fun W bs => bs = wire_bytes (vertex_fields W) /\ wf_vertex W = true).
Proof.
  unfold load_vertex. eapply decodes_weaken.
  - do 6 (eapply rbind_decodes; [apply load_float_decodes | intros ?]).
    eapply rbind_decodes; [apply load_int32_decodes | intros ?].
    apply rret_decodes.
  - cbv beta. intros W bs H.
    repeat match goal with
    | H : exists _, _ |- _ => destruct H
    | H : _ /\ _ |- _ => destruct H
    end.
    subst. split.
    + unfold wire_bytes, vertex_fields. cbn [flat_map PositionX PositionY PositionZ
        NormalX NormalY NormalZ MatIdx]. rewrite !app_nil_r. reflexivity.
    + unfold wf_vertex. cbn [PositionX PositionY PositionZ NormalX NormalY NormalZ MatIdx].
      repeat match goal with Hb : _ = true |- _ => rewrite Hb; clear Hb end. reflexivity.
Qed.

Lemma load_vertices_decodes n : forall Idx M,
  decodes (load_vertices G n Idx M)
    (fun M' bs => exists vs,
       length vs = n /\ forallb wf_vertex vs = true
       /\ bs = wire_bytes (flat_map vertex_fields vs) /\ M' = AddVertices M vs).
Proof.
  induction n as [|n IH]; intros Idx M; cbn [load_vertices].
  - eapply decodes_weaken; [apply rret_decodes|].
    intros M' bs [-> ->]. exists []. now repeat split.
  - eapply decodes_weaken.
    + eapply rbind_decodes; [apply load_vertex_decodes | intros V; apply IH].
    + cbv beta. intros M' bs (V & b1 & b2 & -> & [-> HV] & vs & Hl & Hwf & -> & ->).
      exists (V :: vs). cbn [length forallb flat_map]. rewrite HV, Hwf, Hl, wire_bytes_app.
      now repeat split.
Qed.

Lemma load_indices_decodes n : forall Idx M,
  decodes (load_indices G n Idx M)
    (fun M' bs => exists xs,
       length xs = n /\ forallb is_int32 xs = true
       /\ bs = wire_bytes (map FInt32 xs) /\ M' = AddIndices M xs).
Proof.
  induction n as [|n IH]; intros Idx M; cbn [load_indices].
  - eapply decodes_weaken; [apply rret_decodes|].
    intros M' bs [-> ->]. exists []. now repeat split.
  - eapply decodes_weaken.
    + eapply rbind_decodes; [apply load_int32_decodes | intros i; apply IH].
    + cbv beta. intros M' bs (i & b1 & b2 & -> & [-> Hi] & xs & Hl & Hwf & -> & ->).
      exists (i :: xs). cbn [length forallb map]. rewrite Hi, Hwf, Hl.
      now repeat split.
Qed.

(** An error-free call consumed a stream of the wire shape, and appended
    exactly its records. *)
Lemma DeserializeMesh_decodes M0 :
  decodes (DeserializeMesh G M0)
    (fun M' bs => exists VertexNum B Vertices IndexNum Indices,
       is_int32 VertexNum = true /\ is_int32 IndexNum = true
       /\ length Vertices = Z.to_nat VertexNum /\ length Indices = Z.to_nat IndexNum
       /\ forallb wf_vertex Vertices = true /\ forallb is_int32 Indices = true
       /\ wf_box B = true
       /\ bs = wire_bytes (stream_fields VertexNum B Vertices IndexNum Indices)
       /\ M' = AddIndices (AddVertices M0 Vertices) Indices).
Proof.
  unfold DeserializeMesh. eapply decodes_weaken.
  - eapply rbind_decodes; [apply load_int32_decodes | intros VertexNum].
    do 6 (eapply rbind_decodes; [apply load_float_decodes | intros ?]).
    eapply rbind_decodes; [apply load_vertices_decodes | intros M1].
    eapply rbind_decodes; [apply load_int32_decodes | intros IndexNum].
    apply load_indices_decodes.
  - cbv beta.
    intros M' bs (nv & ? & ? & -> & [-> Hnv]
                  & a & ? & ? & -> & [-> Ha] & b & ? & ? & -> & [-> Hb]
                  & c & ? & ? & -> & [-> Hc] & d & ? & ? & -> & [-> Hd]
                  & e & ? & ? & -> & [-> He] & f & ? & ? & -> & [-> Hf]
                  & M1 & ? & ? & -> & (vs & Hlv & Hwv & -> & ->)
                  & ni & ? & ? & -> & [-> Hni]
                  & xs & Hli & Hwi & -> & ->).
    exists nv, (stored_box a b c d e f), vs, ni, xs.
    split; [exact Hnv|]. split; [exact Hni|]. split; [exact Hlv|]. split; [exact Hli|].
    split; [exact Hwv|]. split; [exact Hwi|]. split; [|split; [|reflexivity]].
    + unfold wf_box, wf_vector, stored_box, FBox_MinMax. cbn [Min Max VecX VecY VecZ].
      now rewrite Ha, Hb, Hc, Hd, He, Hf.
    + unfold stream_fields, box_fields, stored_box, FBox_MinMax.
      cbn [Min Max VecX VecY VecZ]. rewrite !wire_bytes_app.
      unfold wire_bytes at 1 2 4. cbn [flat_map]. rewrite <- !app_assoc, ?app_nil_r.
      cbn [app]. reflexivity.
Qed.

End SafeInverse.

(** ** The box along a section's life *)

Lemma FBox_AddPoints_Init_valid ps :
  ps <> [] -> IsValid (FBox_AddPoints FBox_Init ps) = true.
Proof.
  destruct ps as [|p ps]; [congruence|]. intros _.
  unfold FBox_AddPoints. cbn [fold_left].
  change (FBox_AddPoint FBox_Init p) with (mkFBox p p true).
  fold (FBox_AddPoints (mkFBox p p true) ps). now rewrite FBox_AddPoints_valid.
Qed.

Lemma FBox_MinMax_valid B : IsValid B = true -> FBox_MinMax (Min B) (Max B) = B.
Proof. destruct B as [mn mx v]. cbn. now intros ->. Qed.

Lemma box_replayed_AddVertex M V : box_replayed M -> box_replayed (AddVertex M V).
Proof.
  unfold box_replayed, AddVertex, TArray_Add. cbn [SectionLocalBox ProcVertexBuffer].
  intros ->. rewrite map_app. unfold FBox_AddPoints. now rewrite fold_left_app.
Qed.

Lemma box_replayed_AddVertices vs : forall M,
  box_replayed M -> box_replayed (AddVertices M vs).
Proof.
  induction vs as [|v vs IH]; intros M H; [exact H|].
  change (AddVertices M (v :: vs)) with (AddVertices (AddVertex M v) vs).
  now apply IH, box_replayed_AddVertex.
Qed.

Lemma box_replayed_AddIndices xs M : box_replayed M -> box_replayed (AddIndices M xs).
Proof.
  unfold box_replayed. rewrite AddIndices_components.
  cbn [SectionLocalBox ProcVertexBuffer]. auto.
Qed.

Lemma box_replayed_new : box_replayed FProcMeshSection_new.
Proof. reflexivity. Qed.

Lemma box_replayed_call M c : box_replayed M -> box_replayed (call M c).
Proof.
  intros H. destruct c as [V | i | | G Ar]; cbn [call].
  - now apply box_replayed_AddVertex.
  - now apply (box_replayed_AddIndices [i]).
  - apply box_replayed_new.
  - destruct (DeserializeMesh_extends G M Ar) as (vs & xs & ->).
    now apply box_replayed_AddIndices, box_replayed_AddVertices.
Qed.

Lemma box_replayed_calls cs : forall M, box_replayed M -> box_replayed (calls cs M).
Proof.
  induction cs as [|c cs IH]; intros M H; [exact H|].
  change (calls (c :: cs) M) with (calls cs (call M c)).
  now apply IH, box_replayed_call.
Qed.

(** [+=] on a valid box with ordered corners. *)
Lemma FBox_AddPoint_widens B P :
  IsValid B = true -> ordered_box B = true -> ordered_point P = true ->
  box_within B (FBox_AddPoint B P) /\ box_contains (FBox_AddPoint B P) P.
Proof.
  intros Hv Hb Hp. unfold FBox_AddPoint. rewrite Hv.
  unfold ordered_box, ordered_point in *.
  repeat match goal with
  | H : _ && _ = true |- _ => apply andb_true_iff in H; destruct H
  end.
  destruct (FMath_Min_spec (VecX (Min B)) (VecX P)) as (_ & ? & ?); [assumption..|].
  destruct (FMath_Min_spec (VecY (Min B)) (VecY P)) as (_ & ? & ?); [assumption..|].
  destruct (FMath_Min_spec (VecZ (Min B)) (VecZ P)) as (_ & ? & ?); [assumption..|].
  destruct (FMath_Max_spec (VecX (Max B)) (VecX P)) as (_ & ? & ?); [assumption..|].
  destruct (FMath_Max_spec (VecY (Max B)) (VecY P)) as (_ & ? & ?); [assumption..|].
  destruct (FMath_Max_spec (VecZ (Max B)) (VecZ P)) as (_ & ? & ?); [assumption..|].
  unfold box_within, box_contains. cbn [Min Max VecX VecY VecZ]. tauto.
Qed.

(** ** Counting what a call appends *)

Lemma load_vertices_count G n : forall Idx M Ar,
  exists vs, length vs = n /\ fst (load_vertices G n Idx M Ar) = AddVertices M vs.
Proof.
  induction n as [|n IH]; intros Idx M Ar; cbn [load_vertices].
  - exists []. now split.
  - unfold rbind. destruct (load_vertex (Vertex0 G Idx) Ar) as [V Ar1].
    destruct (IH (S Idx) (AddVertex M V) Ar1) as (vs & Hl & E).
    exists (V :: vs). cbn [length]. now rewrite Hl.
Qed.

Lemma decode_counted G M0 b0 b1 b2 b3 rest :
  exists vs xs,
    length vs = Z.to_nat (int32_of_bits (le_word4 b0 b1 b2 b3))
    /\ fst (decode G M0 (b0 :: b1 :: b2 :: b3 :: rest))
       = AddIndices (AddVertices M0 vs) xs.
Proof.
  unfold decode, FMemoryReader_new, DeserializeMesh.
  unfold rbind at 1. unfold load_int32 at 1, Serialize4 at 1.
  cbn [ArIsError Remaining].
  do 6 (unfold rbind at 1;
        match goal with
        | |- context [load_float ?d ?a] => destruct (load_float d a) as [? ?]
        end).
  unfold rbind at 1.
  match goal with
  | |- context [load_vertices G ?n 0%nat M0 ?a] =>
      destruct (load_vertices_count G n 0%nat M0 a) as (vs & Hl & Ev);
      destruct (load_vertices G n 0%nat M0 a) as [M1 Ar1]
  end.
  cbn [fst] in Ev. subst M1.
  destruct (index_part_extends G (AddVertices M0 vs) Ar1) as [xs E].
  exists vs, xs. split; [exact Hl | exact E].
Qed.

(** ** An archive already in error *)

Lemma Serialize4_in_error r : Serialize4 (mkReader r true) = (None, mkReader r true).
Proof. reflexivity. Qed.

Lemma load_vertex_in_error V r :
  snd (load_vertex V (mkReader r true)) = mkReader r true.
Proof. reflexivity. Qed.

Lemma load_vertices_in_error G n : forall Idx M r,
  snd (load_vertices G n Idx M (mkReader r true)) = mkReader r true.
Proof.
  induction n as [|n IH]; intros Idx M r; [reflexivity|].
  cbn [load_vertices]. unfold rbind.
  destruct (load_vertex (Vertex0 G Idx) (mkReader r true)) as [V Ar1] eqn:E.
  pose proof (load_vertex_in_error (Vertex0 G Idx) r) as H. rewrite E in H.
  cbn [snd] in H. subst Ar1. apply IH.
Qed.

Lemma load_indices_in_error G n : forall Idx M r,
  snd (load_indices G n Idx M (mkReader r true)) = mkReader r true.
Proof.
  induction n as [|n IH]; intros Idx M r; [reflexivity|].
  cbn [load_indices]. unfold rbind, load_int32. rewrite Serialize4_in_error. apply IH.
Qed.

Lemma DeserializeMesh_in_error G M r :
  snd (DeserializeMesh G M (mkReader r true)) = mkReader r true.
Proof.
  unfold DeserializeMesh, rbind, load_int32, load_float.
  rewrite !Serialize4_in_error.
  destruct (load_vertices G (Z.to_nat (VertexNum0 G)) 0 M (mkReader r true))
    as [M1 Ar1] eqn:E.
  pose proof (load_vertices_in_error G (Z.to_nat (VertexNum0 G)) 0 M r) as H.
  rewrite E in H. cbn [snd] in H. subst Ar1.
  rewrite Serialize4_in_error. apply load_indices_in_error.
Qed.

(* ================================================================== *)
(** * Properties beyond the specification's list *)

Import MoreSamples.

(** ** Streams of several sections *)

(** X1. Two sections written one after the other into one archive are read
    back by two successive [DeserializeMesh] calls on one reader: the first
    call stops exactly where the second section starts, the second ends at the
    end of the archive, and each call replays its own section's buffers. *)
Theorem two_sections_in_one_archive
    (G1 G2 : Indeterminate) (T1 T2 M1 M2 : FProcMeshSection) :
  wf_buffers M1 = true ->
  wf_buffers M2 = true ->
  DeserializeMesh G1 T1 (FMemoryReader_new (SerializeMesh M2 (SerializeMesh M1 [])))
  = (replay_onto T1 M1, FMemoryReader_new (encode M2))
  /\ DeserializeMesh G2 T2
       (snd (DeserializeMesh G1 T1
               (FMemoryReader_new (SerializeMesh M2 (SerializeMesh M1 [])))))
     = (replay_onto T2 M2, mkReader [] false).
Proof.
  intros W1 W2.
  assert (E : DeserializeMesh G1 T1
                (FMemoryReader_new (SerializeMesh M2 (SerializeMesh M1 [])))
              = (replay_onto T1 M1, FMemoryReader_new (encode M2))).
  { rewrite (SerializeMesh_fields M2), <- encode_fields.
    fold (encode M1). unfold FMemoryReader_new.
    now apply DeserializeMesh_encode. }
  split; [exact E|]. rewrite E. cbn [snd]. unfold FMemoryReader_new.
  rewrite <- (app_nil_r (encode M2)). now apply DeserializeMesh_encode.
Qed.

Lemma two_sections_in_one_archive_witness :
  wf_buffers triangle = true
  /\ wf_buffers two_vertices = true
  /\ DeserializeMesh stack FProcMeshSection_new
       (FMemoryReader_new (SerializeMesh two_vertices (SerializeMesh triangle [])))
     = (replay_onto FProcMeshSection_new triangle, FMemoryReader_new (encode two_vertices))
  /\ DeserializeMesh stack FProcMeshSection_new
       (snd (DeserializeMesh stack FProcMeshSection_new
               (FMemoryReader_new (SerializeMesh two_vertices (SerializeMesh triangle [])))))
     = (replay_onto FProcMeshSection_new two_vertices, mkReader [] false).
Proof.
  do 2 (split; [reflexivity|]).
  apply (two_sections_in_one_archive stack stack FProcMeshSection_new FProcMeshSection_new
           triangle two_vertices); reflexivity.
Defined.

(** X2. No stream is the start of two different sections: if the stream of
    [M1] followed by some bytes equals the stream of [M2] followed by some
    bytes, the two sections have the same vertex buffer, the same index buffer
    and the same box corners, and the bytes that follow are the same.  (The
    validity flag of the box is not written, so it may differ.) *)
Theorem SerializeMesh_prefix_free (M1 M2 : FProcMeshSection) (r1 r2 : list byte) :
  wf_section M1 = true ->
  wf_section M2 = true ->
  encode M1 ++ r1 = encode M2 ++ r2 ->
  ProcVertexBuffer M1 = ProcVertexBuffer M2
  /\ ProcIndexBuffer M1 = ProcIndexBuffer M2
  /\ Min (SectionLocalBox M1) = Min (SectionLocalBox M2)
  /\ Max (SectionLocalBox M1) = Max (SectionLocalBox M2)
  /\ r1 = r2.
Proof.
  intros W1 W2 E. unfold wf_section in W1, W2.
  apply andb_true_iff in W1, W2. destruct W1 as [B1 X1], W2 as [B2 X2].
  pose proof (DeserializeMeshFast_encode FProcMeshSection_new M1 r1 B1 X1) as F1.
  pose proof (DeserializeMeshFast_encode FProcMeshSection_new M2 r2 B2 X2) as F2.
  rewrite E, F2 in F1. unfold FBox_MinMax in F1.
  injection F1 as Hv Hi Hmin Hmax Hr. now repeat split.
Qed.

Lemma SerializeMesh_prefix_free_witness :
  wf_section triangle = true
  /\ wf_section unflagged_triangle = true
  /\ encode triangle ++ encode two_vertices
     = encode unflagged_triangle ++ encode two_vertices
  /\ ProcVertexBuffer triangle = ProcVertexBuffer unflagged_triangle
  /\ ProcIndexBuffer triangle = ProcIndexBuffer unflagged_triangle
  /\ Min (SectionLocalBox triangle) = Min (SectionLocalBox unflagged_triangle)
  /\ Max (SectionLocalBox triangle) = Max (SectionLocalBox unflagged_triangle)
  /\ encode two_vertices = encode two_vertices.
Proof.
  do 3 (split; [reflexivity|]).
  apply (SerializeMesh_prefix_free triangle unflagged_triangle
           (encode two_vertices) (encode two_vertices));
    reflexivity.
Defined.

(** Three vertices, three indices, corners (-1,0,-2) and (1,5,0): the two
    sections of the sample differ in the flag alone. *)
Example prefix_free_sample :
  length (ProcVertexBuffer unflagged_triangle) = 3%nat
  /\ length (ProcIndexBuffer unflagged_triangle) = 3%nat
  /\ Min (SectionLocalBox unflagged_triangle) = mkFVector f_neg_one f_zero f_neg_two
  /\ Max (SectionLocalBox unflagged_triangle) = mkFVector f_one f_five f_zero
  /\ triangle <> unflagged_triangle.
Proof. repeat split. discriminate. Qed.

(** ** The bulk decoder as an inverse of the encoder *)

(** X3. For a section built from a new one by [AddVertex] calls and index
    appends with at least one vertex, [DeserializeMeshFast] on its stream
    succeeds, reads the stream to its end and fills the very same section, box
    and validity flag included, whatever the target section held. *)
Theorem DeserializeMeshFast_roundtrip (M0 : FProcMeshSection) (ops : list BuildOp) :
  (0 < length (inserted ops))%nat ->
  wf_section (build ops FProcMeshSection_new) = true ->
  DeserializeMeshFast M0 (encode (build ops FProcMeshSection_new))
  = Some (build ops FProcMeshSection_new, []).
Proof.
  intros Hne Hwf. unfold wf_section in Hwf. apply andb_true_iff in Hwf.
  destruct Hwf as [Hbuf Hbox].
  rewrite <- (app_nil_r (encode _)).
  rewrite DeserializeMeshFast_encode by assumption.
  rewrite FBox_MinMax_valid.
  - now destruct (build ops FProcMeshSection_new).
  - rewrite build_components. cbn [SectionLocalBox FProcMeshSection_new].
    apply FBox_AddPoints_Init_valid.
    destruct (inserted ops); [cbn in Hne; lia | discriminate].
Qed.

Lemma DeserializeMeshFast_roundtrip_witness :
  (0 < length (inserted triangle_ops))%nat
  /\ wf_section (build triangle_ops FProcMeshSection_new) = true
  /\ DeserializeMeshFast two_vertices (encode (build triangle_ops FProcMeshSection_new))
     = Some (build triangle_ops FProcMeshSection_new, []).
Proof.
  split; [simpl; lia|]. split; [reflexivity|].
  apply (DeserializeMeshFast_roundtrip two_vertices triangle_ops); [simpl; lia | reflexivity].
Defined.

(** X4. For a section built without any vertex the bulk round trip is not
    the identity: the stream does not carry the box's validity flag, and
    [DeserializeMeshFast] builds the box from two corners, which raises it.
    The section returned has the same (empty) vertex buffer and the same
    indices but a valid box at the origin, where the original has the empty
    box. *)
Theorem DeserializeMeshFast_validates_empty_box (M0 : FProcMeshSection) (ops : list BuildOp) :
  inserted ops = [] ->
  wf_buffers (build ops FProcMeshSection_new) = true ->
  DeserializeMeshFast M0 (encode (build ops FProcMeshSection_new))
  = Some (mkSection [] (appended ops) (mkFBox FVector_Zero FVector_Zero true), [])
  /\ build ops FProcMeshSection_new = mkSection [] (appended ops) FBox_Init
  /\ mkSection [] (appended ops) (mkFBox FVector_Zero FVector_Zero true)
     <> build ops FProcMeshSection_new.
Proof.
  intros Hnone Hbuf.
  assert (E : build ops FProcMeshSection_new = mkSection [] (appended ops) FBox_Init).
  { rewrite build_components, Hnone. reflexivity. }
  split; [|split].
  - rewrite <- (app_nil_r (encode _)).
    rewrite DeserializeMeshFast_encode; [now rewrite E | assumption |].
    now rewrite E.
  - exact E.
  - rewrite E. discriminate.
Qed.

Lemma DeserializeMeshFast_validates_empty_box_witness :
  inserted indices_only_ops = []
  /\ wf_buffers (build indices_only_ops FProcMeshSection_new) = true
  /\ DeserializeMeshFast two_vertices (encode (build indices_only_ops FProcMeshSection_new))
     = Some (mkSection [] (appended indices_only_ops)
               (mkFBox FVector_Zero FVector_Zero true), [])
  /\ build indices_only_ops FProcMeshSection_new
     = mkSection [] (appended indices_only_ops) FBox_Init
  /\ mkSection [] (appended indices_only_ops) (mkFBox FVector_Zero FVector_Zero true)
     <> build indices_only_ops FProcMeshSection_new.
Proof.
  do 2 (split; [reflexivity|]).
  apply (DeserializeMeshFast_validates_empty_box two_vertices indices_only_ops); reflexivity.
Defined.

(** X5. Every buffer the bulk decoder accepts is, byte for byte, the stream
    of the section it returns followed by the bytes it left unread: writing
    the returned section with [SerializeMesh] reproduces what was read, and
    the section holds 32-bit data with counts that fit an [int32]. *)
Theorem DeserializeMeshFast_then_SerializeMesh
    (M0 Mf : FProcMeshSection) (Bytes rest : list byte) :
  DeserializeMeshFast M0 Bytes = Some (Mf, rest) ->
  SerializeMesh Mf [] ++ rest = Bytes /\ wf_section Mf = true.
Proof.
  intros H. destruct (DeserializeMeshFast_inv M0 Bytes Mf rest H) as [E W].
  split; [now rewrite E | exact W].
Qed.

Lemma DeserializeMeshFast_then_SerializeMesh_witness :
  DeserializeMeshFast two_vertices (encode mislabelled ++ zero_count)
  = Some (mislabelled, zero_count)
  /\ SerializeMesh mislabelled [] ++ zero_count = encode mislabelled ++ zero_count
  /\ wf_section mislabelled = true.
Proof.
  split; [reflexivity|].
  apply (DeserializeMeshFast_then_SerializeMesh two_vertices mislabelled
           (encode mislabelled ++ zero_count) zero_count).
  reflexivity.
Defined.

(** X6. On a buffer that ends before the end of a section's stream,
    [DeserializeMeshFast] has no result: one of its reads asks the reader for
    bytes past the end of the buffer. *)
Theorem DeserializeMeshFast_overruns_truncated
    (M0 M : FProcMeshSection) (n : nat) :
  wf_section M = true ->
  (n < length (encode M))%nat ->
  DeserializeMeshFast M0 (firstn n (encode M)) = None.
Proof.
  intros Hwf Hn.
  destruct (DeserializeMeshFast M0 (firstn n (encode M))) as [[Mf rest]|] eqn:F;
    [exfalso|reflexivity].
  destruct (DeserializeMeshFast_inv _ _ _ _ F) as [E Wf].
  unfold wf_section in Hwf, Wf. apply andb_true_iff in Hwf, Wf.
  destruct Hwf as [B1 X1], Wf as [B2 X2].
  pose proof (DeserializeMeshFast_encode M0 M [] B1 X1) as F1.
  pose proof (DeserializeMeshFast_encode M0 Mf (rest ++ skipn n (encode M)) B2 X2) as F2.
  rewrite app_assoc, <- E, firstn_skipn in F2.
  rewrite app_nil_r, F2 in F1.
  assert (Hr : rest ++ skipn n (encode M) = []) by congruence.
  apply app_eq_nil in Hr. destruct Hr as [_ Hs].
  apply (f_equal (@length byte)) in Hs. rewrite length_skipn in Hs.
  cbn [length] in Hs. lia.
Qed.

Lemma DeserializeMeshFast_overruns_truncated_witness :
  wf_section two_vertices = true
  /\ (80 < length (encode two_vertices))%nat
  /\ DeserializeMeshFast FProcMeshSection_new (firstn 80 (encode two_vertices)) = None.
Proof.
  split; [reflexivity|]. split; [vm_compute; lia|].
  apply (DeserializeMeshFast_overruns_truncated FProcMeshSection_new two_vertices 80);
    [reflexivity | vm_compute; lia].
Defined.

(** X7. Wherever the bulk decoder succeeds the safe decoder does too, on any
    buffer at all: [DeserializeMesh] into a new section ends without error at
    the same place and with the same vertex and index buffers; its box is the
    replay of the vertices, not the stored one. *)
Theorem fast_success_is_safe_success
    (G : Indeterminate) (M0 Mf : FProcMeshSection) (Bytes rest : list byte) :
  DeserializeMeshFast M0 Bytes = Some (Mf, rest) ->
  decode G FProcMeshSection_new Bytes
  = (mkSection (ProcVertexBuffer Mf) (ProcIndexBuffer Mf)
       (FBox_AddPoints FBox_Init (map VertexPos (ProcVertexBuffer Mf))),
     mkReader rest false).
Proof.
  intros H. destruct (DeserializeMeshFast_inv M0 Bytes Mf rest H) as [-> W].
  unfold wf_section in W. apply andb_true_iff in W. destruct W as [Wb _].
  unfold decode, FMemoryReader_new. rewrite DeserializeMesh_encode by assumption.
  rewrite AddIndices_components, AddVertices_components. reflexivity.
Qed.

Lemma fast_success_is_safe_success_witness :
  DeserializeMeshFast two_vertices (encode mislabelled ++ zero_count)
  = Some (mislabelled, zero_count)
  /\ decode stack FProcMeshSection_new (encode mislabelled ++ zero_count)
     = (mkSection (ProcVertexBuffer mislabelled) (ProcIndexBuffer mislabelled)
          (FBox_AddPoints FBox_Init (map VertexPos (ProcVertexBuffer mislabelled))),
        mkReader zero_count false).
Proof.
  split; [reflexivity|].
  apply (fast_success_is_safe_success stack two_vertices mislabelled
           (encode mislabelled ++ zero_count) zero_count).
  reflexivity.
Defined.

(** ** The safe decoder on arbitrary bytes *)

(** X8. Whenever [DeserializeMesh] returns with the archive's flag down, the
    bytes it consumed were a stream of the wire shape - a count, six floats,
    that many vertex records (none for a negative count), a count, that many
    indices - and what it appended to the section are exactly those records,
    in order. *)
Theorem error_free_decode_read_a_stream
    (G : Indeterminate) (M0 : FProcMeshSection) (Bytes : list byte) :
  decode_flags_error G M0 Bytes = false ->
  exists VertexNum B Vertices IndexNum Indices,
    Bytes = wire_bytes (stream_fields VertexNum B Vertices IndexNum Indices)
            ++ Remaining (snd (decode G M0 Bytes))
    /\ fst (decode G M0 Bytes) = AddIndices (AddVertices M0 Vertices) Indices
    /\ length Vertices = Z.to_nat VertexNum
    /\ length Indices = Z.to_nat IndexNum
    /\ is_int32 VertexNum = true /\ is_int32 IndexNum = true
    /\ forallb wf_vertex Vertices = true /\ forallb is_int32 Indices = true.
Proof.
  intros H. unfold decode_flags_error, decode in *.
  destruct (DeserializeMesh_decodes G M0 _ H)
    as (_ & bs & Hr & nv & B & vs & ni & xs & Hnv & Hni & Hlv & Hli & Hv & Hi & _ & -> & E).
  exists nv, B, vs, ni, xs. cbn [Remaining FMemoryReader_new] in Hr.
  now repeat split.
Qed.

Lemma error_free_decode_read_a_stream_witness :
  decode_flags_error stack two_vertices negative_count = false
  /\ exists VertexNum B Vertices IndexNum Indices,
       negative_count
       = wire_bytes (stream_fields VertexNum B Vertices IndexNum Indices)
         ++ Remaining (snd (decode stack two_vertices negative_count))
       /\ fst (decode stack two_vertices negative_count)
          = AddIndices (AddVertices two_vertices Vertices) Indices
       /\ length Vertices = Z.to_nat VertexNum
       /\ length Indices = Z.to_nat IndexNum
       /\ is_int32 VertexNum = true /\ is_int32 IndexNum = true
       /\ forallb wf_vertex Vertices = true /\ forallb is_int32 Indices = true.
Proof.
  split; [reflexivity|].
  apply (error_free_decode_read_a_stream stack two_vertices negative_count). reflexivity.
Defined.

(** X9. [DeserializeMesh] trusts the vertex count: once the four bytes of
    the count are read it calls [AddVertex] exactly max(0, count) times,
    whether or not the stream holds that many records, and what the section
    held before stays at the front of both buffers. *)
Theorem DeserializeMesh_appends_count_vertices
    (G : Indeterminate) (M0 : FProcMeshSection) (b0 b1 b2 b3 : byte) (rest : list byte) :
  length (ProcVertexBuffer (fst (decode G M0 (b0 :: b1 :: b2 :: b3 :: rest))))
  = (length (ProcVertexBuffer M0)
     + Z.to_nat (int32_of_bits (le_word4 b0 b1 b2 b3)))%nat
  /\ firstn (length (ProcVertexBuffer M0))
            (ProcVertexBuffer (fst (decode G M0 (b0 :: b1 :: b2 :: b3 :: rest))))
     = ProcVertexBuffer M0
  /\ firstn (length (ProcIndexBuffer M0))
            (ProcIndexBuffer (fst (decode G M0 (b0 :: b1 :: b2 :: b3 :: rest))))
     = ProcIndexBuffer M0.
Proof.
  destruct (decode_counted G M0 b0 b1 b2 b3 rest) as (vs & xs & Hl & ->).
  rewrite AddIndices_components, AddVertices_components.
  cbn [ProcVertexBuffer ProcIndexBuffer].
  split; [|split].
  - now rewrite length_app, Hl.
  - now apply firstn_exact.
  - now apply firstn_exact.
Qed.

(** X10. The stored box plays no part in what [DeserializeMesh] does, on any
    stream: two buffers that differ only in the 24 bytes after the vertex
    count give the same section and the same archive state. *)
Theorem DeserializeMesh_never_reads_stored_box
    (G : Indeterminate) (M0 : FProcMeshSection) (count box box' tail : list byte) :
  length count = 4%nat ->
  length box = 24%nat ->
  length box' = 24%nat ->
  decode G M0 (count ++ box ++ tail) = decode G M0 (count ++ box' ++ tail).
Proof.
  intros Hc Hb Hb'. unfold decode, FMemoryReader_new.
  now apply DeserializeMesh_ignores_stored_box.
Qed.

Lemma DeserializeMesh_never_reads_stored_box_witness :
  length zero_count = 4%nat
  /\ length box_of_zeros = 24%nat
  /\ length box_of_ones = 24%nat
  /\ decode stack two_vertices (zero_count ++ box_of_zeros ++ zero_count)
     = decode stack two_vertices (zero_count ++ box_of_ones ++ zero_count).
Proof.
  do 3 (split; [reflexivity|]).
  apply (DeserializeMesh_never_reads_stored_box stack two_vertices
           zero_count box_of_zeros box_of_ones zero_count); reflexivity.
Defined.

(** X11. An archive that is already in error is left as it is: the call
    consumes no byte and the flag stays up. *)
Theorem DeserializeMesh_keeps_error
    (G : Indeterminate) (M : FProcMeshSection) (Bytes : list byte) :
  snd (DeserializeMesh G M (mkReader Bytes true)) = mkReader Bytes true.
Proof. apply DeserializeMesh_in_error. Qed.

(** X12. Truncation anywhere in an archive of two sections is still visible
    after both have been read: if the archive is cut short, the reader's flag
    is up once the two [DeserializeMesh] calls have returned, so testing it
    once at the end is enough. *)
Theorem truncation_survives_later_calls
    (G1 G2 : Indeterminate) (T1 T2 M1 M2 : FProcMeshSection) (n : nat) :
  wf_buffers M1 = true ->
  wf_buffers M2 = true ->
  (n < length (SerializeMesh M2 (SerializeMesh M1 [])))%nat ->
  ArIsError
    (snd (DeserializeMesh G2 T2
            (snd (decode G1 T1 (firstn n (SerializeMesh M2 (SerializeMesh M1 [])))))))
  = true.
Proof.
  intros W1 W2 Hn.
  rewrite (SerializeMesh_fields M2), <- encode_fields in *. fold (encode M1) in *.
  rewrite length_app in Hn.
  destruct (Nat.lt_ge_cases n (length (encode M1))) as [Hlt | Hge].
  - rewrite firstn_app.
    replace (n - length (encode M1))%nat with 0%nat by lia.
    rewrite firstn_O, app_nil_r.
    pose proof (truncated_flags_error G1 T1 M1 n W1 Hlt) as F.
    unfold decode_flags_error in F.
    destruct (decode G1 T1 (firstn n (encode M1))) as [S1 [r e]].
    cbn [snd ArIsError] in *. subst e. now rewrite DeserializeMesh_in_error.
  - rewrite firstn_app, (firstn_all2 (encode M1)) by lia.
    unfold decode, FMemoryReader_new.
    rewrite DeserializeMesh_encode by assumption. cbn [snd].
    apply (truncated_flags_error G2 T2 M2 (n - length (encode M1)) W2). lia.
Qed.

Lemma truncation_survives_later_calls_witness :
  wf_buffers triangle = true
  /\ wf_buffers two_vertices = true
  /\ (150 < length (SerializeMesh two_vertices (SerializeMesh triangle [])))%nat
  /\ ArIsError
       (snd (DeserializeMesh stack FProcMeshSection_new
               (snd (decode stack FProcMeshSection_new
                       (firstn 150 (SerializeMesh two_vertices (SerializeMesh triangle [])))))))
     = true.
Proof.
  do 2 (split; [reflexivity|]). split; [vm_compute; lia|].
  apply (truncation_survives_later_calls stack stack FProcMeshSection_new
           FProcMeshSection_new triangle two_vertices 150);
    [reflexivity | reflexivity | vm_compute; lia].
Defined.

(** ** The box *)

(** X13. Through any sequence of [AddVertex] calls, index appends, [Reset]
    calls and [DeserializeMesh] calls on any archives, well formed or not,
    started on a new section, the box stays the one that [+=] builds from the
    empty box over the vertex buffer; so whenever the buffer is not empty and
    its positions are ordered floats, the box is their tight bound. *)
Theorem box_follows_vertex_buffer (cs : list SectionCall) :
  box_replayed (calls cs FProcMeshSection_new)
  /\ ((0 < length (ProcVertexBuffer (calls cs FProcMeshSection_new)))%nat ->
      forallb ordered_point
        (map VertexPos (ProcVertexBuffer (calls cs FProcMeshSection_new))) = true ->
      tight_bound (SectionLocalBox (calls cs FProcMeshSection_new))
        (map VertexPos (ProcVertexBuffer (calls cs FProcMeshSection_new)))).
Proof.
  assert (H : box_replayed (calls cs FProcMeshSection_new))
    by apply box_replayed_calls, box_replayed_new.
  split; [exact H|]. intros Hne Hord. rewrite H.
  apply FBox_AddPoints_tight; [|exact Hord].
  destruct (ProcVertexBuffer (calls cs FProcMeshSection_new)); [cbn in Hne; lia | discriminate].
Qed.

(** X14. The safe round trip gives a section back unchanged exactly when its
    box is the replay of its vertex buffer: for any section with well-formed
    buffers, decoding its stream into a new section returns it if and only if
    its box is the one [AddVertex] would have built. *)
Theorem safe_roundtrip_iff_box_replayed (G : Indeterminate) (M : FProcMeshSection) :
  wf_buffers M = true ->
  (fst (decode G FProcMeshSection_new (encode M)) = M <-> box_replayed M).
Proof.
  intros Hwf. rewrite decode_encode by assumption. cbn [fst].
  rewrite AddIndices_components, AddVertices_components.
  cbn [ProcVertexBuffer ProcIndexBuffer SectionLocalBox FProcMeshSection_new app].
  unfold box_replayed. destruct M as [vs xs B]. cbn [ProcVertexBuffer SectionLocalBox].
  split.
  - intros E. injection E as E. now symmetry.
  - intros ->. reflexivity.
Qed.

Lemma safe_roundtrip_iff_box_replayed_witness :
  wf_buffers mislabelled = true
  /\ (fst (decode stack FProcMeshSection_new (encode mislabelled)) = mislabelled
      <-> box_replayed mislabelled).
Proof.
  split; [reflexivity|].
  apply (safe_roundtrip_iff_box_replayed stack mislabelled). reflexivity.
Defined.

(** X15. [AddVertex] on a section whose box is valid never shrinks the box
    and leaves the new position inside it (corners and position being ordered
    floats); the box stays valid. *)
Theorem AddVertex_widens_box (M : FProcMeshSection) (Vertex : FProcMeshVertex) :
  IsValid (SectionLocalBox M) = true ->
  ordered_box (SectionLocalBox M) = true ->
  ordered_point (VertexPos Vertex) = true ->
  box_within (SectionLocalBox M) (SectionLocalBox (AddVertex M Vertex))
  /\ box_contains (SectionLocalBox (AddVertex M Vertex)) (VertexPos Vertex)
  /\ IsValid (SectionLocalBox (AddVertex M Vertex)) = true.
Proof.
  intros Hv Hb Hp. unfold AddVertex. cbn [SectionLocalBox].
  destruct (FBox_AddPoint_widens _ _ Hv Hb Hp) as [Hw Hc].
  repeat split; try apply Hw; try apply Hc.
  unfold FBox_AddPoint. now rewrite Hv.
Qed.

Lemma AddVertex_widens_box_witness :
  IsValid (SectionLocalBox mislabelled) = true
  /\ ordered_box (SectionLocalBox mislabelled) = true
  /\ ordered_point (VertexPos vc) = true
  /\ box_within (SectionLocalBox mislabelled) (SectionLocalBox (AddVertex mislabelled vc))
  /\ box_contains (SectionLocalBox (AddVertex mislabelled vc)) (VertexPos vc)
  /\ IsValid (SectionLocalBox (AddVertex mislabelled vc)) = true.
Proof.
  do 3 (split; [reflexivity|]).
  apply (AddVertex_widens_box mislabelled vc); reflexivity.
Defined.

(** ** Building *)

(** X16. [AddVertex] and index appends do not interfere: two build
    sequences that insert the same vertices in the same order and append the
    same indices in the same order, however interleaved, give the same
    section from the same start. *)
Theorem interleaving_is_irrelevant (M : FProcMeshSection) (ops ops' : list BuildOp) :
  inserted ops = inserted ops' ->
  appended ops = appended ops' ->
  build ops M = build ops' M.
Proof.
  intros Hv Hi. rewrite (build_components ops), (build_components ops').
  now rewrite Hv, Hi.
Qed.

Lemma interleaving_is_irrelevant_witness :
  inserted triangle_ops = inserted triangle_ops_regrouped
  /\ appended triangle_ops = appended triangle_ops_regrouped
  /\ build triangle_ops two_vertices = build triangle_ops_regrouped two_vertices.
Proof.
  do 2 (split; [reflexivity|]).
  apply (interleaving_is_irrelevant two_vertices triangle_ops triangle_ops_regrouped);
    reflexivity.
Defined.

(** ** The tangent record *)

(** The three constructors agree where their arguments do: the default
    tangent is (1, 0, 0) without flip. *)
Remark FProcMeshTangent_constructors_agree (X Y Z : float32) :
  FProcMeshTangent_default = FProcMeshTangent_XYZ f_one f_zero f_zero
  /\ FProcMeshTangent_XYZ X Y Z = FProcMeshTangent_of (mkFVector X Y Z) false.
Proof. split; reflexivity. Qed.
